(** * pprofiler: the command bridge, the profile controller and the poll tick

    A shallow embedding of [src/pprofiler.py]: [parser], the three
    [PowerCtl] operations, [SystrayIcon.update_icon] and the theme
    handling of [MainApp.on_timer], together with the Python string
    primitives they rely on. *)

From Stdlib Require Import Ascii String DecimalString DecimalPos DecimalZ.
From Stdlib Require Import List NArith ZArith Bool Lia.
Import ListNotations.

Local Open Scope N_scope.

(** ** Python [str] values

    A Python [str] is a sequence of Unicode code points; a code point is
    kept as an [N]. *)

Definition char := N.
Definition str := list char.

(** A literal of the source, written as a Rocq string of ASCII characters. *)
Definition lit (s : string) : str := map N_of_ascii (list_ascii_of_string s).

Fixpoint str_eqb (a b : str) : bool :=
  match a, b with
  | [], [] => true
  | x :: a', y :: b' => (x =? y) && str_eqb a' b'
  | _, _ => false
  end.

(** Truth value of a [str]: the empty string is false. *)
Definition truthy (s : str) : bool :=
  match s with [] => false | _ :: _ => true end.

(** [str.isspace] on one code point (the whitespace table of CPython). *)
Definition isspace (c : char) : bool :=
  ((0x09 <=? c) && (c <=? 0x0D)) ||
  ((0x1C <=? c) && (c <=? 0x20)) ||
  (c =? 0x85) || (c =? 0xA0) || (c =? 0x1680) ||
  ((0x2000 <=? c) && (c <=? 0x200A)) ||
  (c =? 0x2028) || (c =? 0x2029) || (c =? 0x202F) || (c =? 0x205F) ||
  (c =? 0x3000).

(** The line boundaries recognised by [str.splitlines]. *)
Definition islinebreak (c : char) : bool :=
  ((0x0A <=? c) && (c <=? 0x0D)) ||
  ((0x1C <=? c) && (c <=? 0x1E)) ||
  (c =? 0x85) || (c =? 0x2028) || (c =? 0x2029).

Definition CR : char := 0x0D.
Definition LF : char := 0x0A.

(** [s.lstrip()], [s.rstrip()] and [s.strip()] without argument. *)
Fixpoint lstrip (s : str) : str :=
  match s with
  | [] => []
  | c :: s' => if isspace c then lstrip s' else s
  end.

Definition rstrip (s : str) : str := rev (lstrip (rev s)).

Definition strip (s : str) : str := rstrip (lstrip s).

(** [s.splitlines()]: a line ends at a line boundary, which is dropped;
    CR LF counts as one boundary; no empty line is produced after the last
    boundary. *)
Fixpoint splitlines (s : str) : list str :=
  match s with
  | [] => []
  | c :: s' =>
      if islinebreak c then
        [] :: match s' with
              | d :: s'' => if (c =? CR) && (d =? LF) then splitlines s''
                            else splitlines s'
              | [] => []
              end
      else
        match splitlines s' with
        | [] => [[c]]
        | l :: ls => (c :: l) :: ls
        end
  end.

(** [s.replace(old, new)] for an [old] of one character, the only use in
    the source. *)
Definition replace (old : char) (new : str) (s : str) : str :=
  flat_map (fun c => if c =? old then new else [c]) s.

(** [s.startswith(p)], [s.endswith(p)] and [x in s] on strings. *)
Fixpoint startswith (p s : str) : bool :=
  match p, s with
  | [], _ => true
  | _ :: _, [] => false
  | a :: p', b :: s' => (a =? b) && startswith p' s'
  end.

Definition endswith (p s : str) : bool := startswith (rev p) (rev s).

Fixpoint contains (x s : str) : bool :=
  startswith x s ||
  match s with
  | [] => false
  | _ :: s' => contains x s'
  end.

(** [s.split(sep)[0]] for a [sep] of one character: the part before the
    first separator. *)
Fixpoint split_head (sep : char) (s : str) : str :=
  match s with
  | [] => []
  | c :: s' => if c =? sep then [] else c :: split_head sep s'
  end.

(** [str(n)] for an [int]. *)
Definition str_of_int (n : Z) : str :=
  lit (NilZero.string_of_int (Z.to_int n)).

(** [next((x for x in xs if x), default)]. *)
Fixpoint next_truthy (xs : list str) (default : str) : str :=
  match xs with
  | [] => default
  | x :: xs' => if truthy x then x else next_truthy xs' default
  end.

(** [any([...])]. *)
Definition any (bs : list bool) : bool := existsb (fun b => b) bs.

(** ** [shlex.split]

    [shlex.split(command)] runs the POSIX-mode lexer with
    [whitespace_split] set and comments off.  The lexer state is the
    [state] attribute of [shlex.shlex]: [' '] between words, ['a'] inside
    a word, a quote character inside quotes, and the escape character
    after a backslash (with [escapedstate] to return to). *)

Definition SPACE : char := 0x20.
Definition TAB : char := 0x09.
Definition DQUOTE : char := 0x22.
Definition SQUOTE : char := 0x27.
Definition BACKSLASH : char := 0x5C.

Definition shlex_whitespace (c : char) : bool :=
  (c =? SPACE) || (c =? TAB) || (c =? CR) || (c =? LF).

Definition shlex_quote (c : char) : bool := (c =? SQUOTE) || (c =? DQUOTE).

Inductive lex_state : Type :=
  | Blank                        (* state ' ' *)
  | Word                         (* state 'a' *)
  | InQuote (q : char)           (* state in quotes *)
  | Escape (back : option char). (* state in escape; escapedstate is 'a'
                                    ([None]) or the quote ([Some q]) *)

(** The tokens of [input], read from lexer state [st] with the current
    [token] and its [quoted] flag; [None] is [ValueError] (no closing
    quotation, or no escaped character). *)
Fixpoint shlex_read (st : lex_state) (token : str) (quoted : bool)
    (input : str) : option (list str) :=
  match input with
  | [] =>
      match st with
      | Blank => Some []
      | Word => Some (if truthy token || quoted then [token] else [])
      | InQuote _ => None
      | Escape _ => None
      end
  | c :: rest =>
      match st with
      | Blank =>
          if shlex_whitespace c then shlex_read Blank [] false rest
          else if c =? BACKSLASH then shlex_read (Escape None) [] false rest
          else if shlex_quote c then shlex_read (InQuote c) [] true rest
          else shlex_read Word [c] false rest
      | Word =>
          if shlex_whitespace c then
            match shlex_read Blank [] false rest with
            | Some ts => Some (if truthy token || quoted then token :: ts else ts)
            | None => None
            end
          else if shlex_quote c then shlex_read (InQuote c) token true rest
          else if c =? BACKSLASH then shlex_read (Escape None) token quoted rest
          else shlex_read Word (token ++ [c]) quoted rest
      | InQuote q =>
          if c =? q then shlex_read Word token true rest
          else if (c =? BACKSLASH) && (q =? DQUOTE) then
            shlex_read (Escape (Some q)) token true rest
          else shlex_read (InQuote q) (token ++ [c]) true rest
      | Escape None => shlex_read Word (token ++ [c]) quoted rest
      | Escape (Some q) =>
          let token' :=
            if negb (c =? BACKSLASH) && negb (c =? q)
            then token ++ [BACKSLASH] else token in
          shlex_read (InQuote q) (token' ++ [c]) true rest
      end
  end.

Definition shlex_split (command : str) : option (list str) :=
  shlex_read Blank [] false command.

(** [posixpath.join(a, b)]. *)
Definition SLASH : char := 0x2F.

Definition path_join (a b : str) : str :=
  if startswith [SLASH] b then b
  else if negb (truthy a) || endswith [SLASH] a then a ++ b
  else a ++ [SLASH] ++ b.

(** ** Dictionaries with [str] keys, in insertion order *)

Section Dict.
Context {V : Type}.

Definition dict := list (str * V).

(** [d.get(k)] as an option; [k in d] is [dict_mem]. *)
Fixpoint dict_lookup (k : str) (d : dict) : option V :=
  match d with
  | [] => None
  | (k', v) :: d' => if str_eqb k k' then Some v else dict_lookup k d'
  end.

Definition dict_mem (k : str) (d : dict) : bool :=
  match dict_lookup k d with Some _ => true | None => false end.

(** [d[k] = v]: an existing key keeps its place, a new key goes last. *)
Fixpoint dict_set (k : str) (v : V) (d : dict) : dict :=
  match d with
  | [] => [(k, v)]
  | (k', v') :: d' =>
      if str_eqb k k' then (k', v) :: d' else (k', v') :: dict_set k v d'
  end.

(** [d.get(k, default)]. *)
Definition dict_get (k : str) (default : V) (d : dict) : V :=
  match dict_lookup k d with Some v => v | None => default end.
End Dict.

Arguments dict V : clear implicits.

(** ** The world outside the program *)

(** What [Popen(argv)] followed by [communicate(timeout=...)] does, for
    a child process that exits and whose output decodes as text: the
    process ends in time with an exit code and its captured standard
    output, or [TimeoutExpired] is raised and the [with] block is left
    once the child has exited, or the launch itself raises [OSError].
    The other behaviours of a child are in [child] below. *)
Inductive proc_outcome : Type :=
  | Exited (returncode : Z) (stdout : str)
  | TimedOut
  | LaunchFailed.

(** An icon handle: [get_icon(path)] or the default art-provider icon. *)
Inductive Icon : Type :=
  | Loaded (path : str)
  | ArtIcon.

(** The exception classes that reach the callers; [ValueError] stands
    for its subclasses too ([UnicodeDecodeError], [UnicodeEncodeError]). *)
Inductive exn : Type := ValueError | OSError | KeyError | IndexError.

(** Calls that leave the program, in the order they are made. *)
Inductive action : Type :=
  | Popen (argv : list str)
  | Print (msg : str)
  | Listdir (path : str)
  | SetIcon (icon : option Icon) (tooltip : str).

Record env : Type := {
  run : list str -> proc_outcome;           (* the process started on an exec vector *)
  listdir : str -> option (list str);       (* os.listdir; None raises OSError *)
  lower : str -> str;                       (* str.lower *)
  APP_PATH : str;
  fsencodable : char -> bool                (* os.fsencode accepts the character *)
}.

(** The mutable globals: the entries of [CONF] that are written after
    start-up, [SystrayIcon.current_profile], and the calls made so far. *)
Record state : Type := {
  system_theme : str;                          (* CONF['system.theme'] *)
  system_theme_force : bool;                   (* CONF['system.theme.force'] *)
  systray_icon_state : dict (option Icon);     (* CONF['systray.icon.state'] *)
  current_profile : str;                       (* SystrayIcon.current_profile *)
  trace : list action
}.

Definition with_system_theme (v : str) (s : state) : state :=
  {| system_theme := v; system_theme_force := system_theme_force s;
     systray_icon_state := systray_icon_state s;
     current_profile := current_profile s; trace := trace s |}.

Definition with_systray_icon_state (v : dict (option Icon)) (s : state) : state :=
  {| system_theme := system_theme s; system_theme_force := system_theme_force s;
     systray_icon_state := v;
     current_profile := current_profile s; trace := trace s |}.

Definition with_current_profile (v : str) (s : state) : state :=
  {| system_theme := system_theme s; system_theme_force := system_theme_force s;
     systray_icon_state := systray_icon_state s;
     current_profile := v; trace := trace s |}.

Definition with_trace (v : list action) (s : state) : state :=
  {| system_theme := system_theme s; system_theme_force := system_theme_force s;
     systray_icon_state := systray_icon_state s;
     current_profile := current_profile s; trace := v |}.

(** ** A state and exception monad *)

Definition M (A : Type) : Type := state -> (exn + A) * state.

Definition ret {A} (a : A) : M A := fun s => (inr a, s).

Definition bind {A B} (m : M A) (k : A -> M B) : M B :=
  fun s =>
    match m s with
    | (inl x, s') => (inl x, s')
    | (inr a, s') => k a s'
    end.

Definition raise {A} (x : exn) : M A := fun s => (inl x, s).

Definition gets {A} (f : state -> A) : M A := fun s => (inr (f s), s).

Definition modify (f : state -> state) : M unit := fun s => (inr tt, f s).

Definition emit (a : action) : M unit :=
  modify (fun s => with_trace (trace s ++ [a]) s).

Declare Scope py_scope.
Delimit Scope py_scope with py.
Notation "x <- m ;; k" := (bind m (fun x => k))
  (at level 61, m at next level, right associativity) : py_scope.
Notation "m ;; k" := (bind m (fun _ => k))
  (at level 61, right associativity) : py_scope.

(** ** The program *)

(** The entries of [CONF] that are never written. *)
Module CONF.
Definition powerprofilesctl : str := lit "/usr/bin/powerprofilesctl".
Definition powerprofilesctl_excluded_lines : list str :=
  [lit "CpuDriver:"; lit "Degraded:"; lit "PlatformDriver:"].
Definition cmds_list : str := lit "list".
Definition cmds_set : str := lit "set".
Definition cmds_get : str := lit "get".
End CONF.

Definition STAR : char := 0x2A.
Definition COLON : char := 0x3A.
Definition DOT : char := 0x2E.

(** The result dictionaries of [parser] and of the [PowerCtl] methods. *)
Record parsed : Type := {
  error_code : str;
  output : list str
}.

Record profiles_result : Type := {
  profiles_error_code : str;
  profiles : list str
}.

Record active_result : Type := {
  active_error_code : str;
  profile : str
}.

(** The element expression and the condition of the list comprehension
    of [get_profiles]. *)
Definition clean (line : str) : str :=
  strip (replace COLON [] (replace STAR [] line)).

Definition keep (excluded : list str) (line : str) : bool :=
  truthy line && negb (any (map (fun x => contains x line) excluded)).

Definition profiles_of (excluded : list str) (lines : list str) : list str :=
  map clean (filter (keep excluded) lines).

Definition theme_name (is_dark : bool) : str :=
  if is_dark then lit "dark" else lit "light".

(** What [Popen] asks of an argument before it starts anything: no NUL
    character, and only characters the file-system encoding can encode,
    which every ASCII character is.  An argument that fails the test
    makes [Popen] raise [ValueError]. *)
Definition accepted (e : env) (arg : str) : bool :=
  forallb (fun c => negb (c =? 0) && ((c <? 128) || fsencodable e c)) arg.

Section Program.
Variable e : env.

Local Open Scope py_scope.

Definition logger (msg : str) : M unit := emit (Print msg).

(** [parser(command)]; [TimeoutExpired] is the one exception caught.
    [Popen] takes the program from the first argument (an empty vector
    raises [IndexError]) and checks the arguments before it starts the
    process. *)
Definition parser (command : str) : M parsed :=
  match shlex_split command with
  | None => raise ValueError
  | Some argv =>
      emit (Popen argv) ;;
      match argv with
      | [] => raise IndexError
      | _ :: _ =>
          if forallb (accepted e) argv then
            match run e argv with
            | Exited returncode stdout =>
                ret {| error_code := str_of_int returncode;
                       output := map strip (splitlines stdout) |}
            | TimedOut => ret {| error_code := lit "1"; output := [] |}
            | LaunchFailed => raise OSError
            end
          else raise ValueError
      end
  end.

(** *** class PowerCtl *)

Definition command : str := CONF.powerprofilesctl.

Definition get_profiles : M profiles_result :=
  let excluded := CONF.powerprofilesctl_excluded_lines in
  parsed <- parser (command ++ lit " " ++ CONF.cmds_list) ;;
  ret {| profiles_error_code := error_code parsed;
         profiles := profiles_of excluded (output parsed) |}.

Definition set_profile (profile : str) : M bool :=
  logger (lit "Set profile: " ++ profile) ;;
  parsed <- parser (command ++ lit " " ++ CONF.cmds_set ++ lit " " ++ profile) ;;
  ret (str_eqb (error_code parsed) (lit "0")).

Definition get_active_profile : M active_result :=
  parsed <- parser (command ++ lit " " ++ CONF.cmds_get) ;;
  ret {| active_error_code := error_code parsed;
         profile := next_truthy (output parsed) [] |}.

(** *** class SystrayIcon *)

Definition update_icon : M unit :=
  r <- get_active_profile ;;
  let active_profile := profile r in
  current <- gets current_profile ;;
  if negb (str_eqb active_profile current) then
    modify (with_current_profile active_profile) ;;
    icons <- gets systray_icon_state ;;
    match dict_lookup (lit "balanced") icons with
    | None => raise KeyError
    | Some fallback =>
        let icon := dict_get active_profile fallback icons in
        emit (SetIcon icon (lit "Active Profile: " ++ active_profile))
    end
  else ret tt.

(** *** class MainApp

    [is_dark] is the answer of
    [wx.SystemSettings.GetAppearance().IsDark()] at that call. *)

Definition set_theme_style (is_dark : bool) : M unit :=
  force <- gets system_theme_force ;;
  if negb force then modify (with_system_theme (theme_name is_dark))
  else ret tt.

Definition os_theme_style_changed (is_dark : bool) : M bool :=
  let cur_theme := theme_name is_dark in
  theme <- gets system_theme ;;
  ret (str_eqb theme cur_theme).

Definition set_icons : M unit :=
  theme <- gets system_theme ;;
  let dir := path_join (APP_PATH e) theme in
  emit (Listdir dir) ;;
  match listdir e dir with
  | None => raise OSError
  | Some names =>
      let cur_image_files :=
        filter (fun x => endswith (lit ".png") (lower e x)) names in
      modify (fun s => with_systray_icon_state
        (fold_left
           (fun icons image_file =>
              let img_tmp := split_head DOT image_file in
              if dict_mem img_tmp icons
              then dict_set img_tmp
                     (Some (Loaded (path_join (path_join (APP_PATH e) theme) image_file)))
                     icons
              else icons)
           cur_image_files (systray_icon_state s)) s) ;;
      modify (fun s => with_systray_icon_state
        (map (fun kv => match snd kv with
                        | None => (fst kv, Some ArtIcon)
                        | Some _ => kv
                        end)
             (systray_icon_state s)) s)
  end.

(** One poll tick; [dark_at_check] and [dark_at_refresh] are the
    appearance answers at the query of [os_theme_style_changed] and at
    the query of [set_theme_style]. *)
Definition on_timer (dark_at_check dark_at_refresh : bool) : M unit :=
  changed <- os_theme_style_changed dark_at_check ;;
  (if changed then
     set_theme_style dark_at_refresh ;;
     set_icons
   else ret tt) ;;
  update_icon.
End Program.

(** ** Vocabulary of the statements *)

(** The exec vectors of the three commands. *)
Definition list_argv : list str := [CONF.powerprofilesctl; lit "list"].
Definition get_argv : list str := [CONF.powerprofilesctl; lit "get"].
Definition set_argv (name : str) : list str :=
  [CONF.powerprofilesctl; lit "set"; name].

(** A result counts as a success when its error code is ['0'], the test
    [set_profile] makes. *)
Definition is_success (code : str) : bool := str_eqb code (lit "0").

(** A command has failed when it timed out or exited with a code other
    than 0. *)
Definition failed (o : proc_outcome) : Prop :=
  match o with
  | Exited returncode _ => returncode <> 0%Z
  | TimedOut => True
  | LaunchFailed => False
  end.

(** A string with no whitespace at either end. *)
Definition starts_space (s : str) : bool :=
  match s with [] => false | c :: _ => isspace c end.

Definition trimmed (s : str) : Prop :=
  starts_space s = false /\ starts_space (rev s) = false.

(** [raw] is [out] with whitespace added at the ends only. *)
Definition stripped_from (raw out : str) : Prop :=
  exists l r, raw = l ++ out ++ r /\
              forallb isspace l = true /\ forallb isspace r = true /\
              trimmed out.

(** Text made of the given lines, each ended by a line feed. *)
Definition unlines (ls : list str) : str :=
  concat (map (fun l => l ++ [LF]) ls).

Definition no_linebreak (l : str) : Prop := forallb (fun c => negb (islinebreak c)) l = true.

(** The profile read off the outcome of the get command: the first
    non-empty trimmed line of what was printed, the empty string when
    there is none or when nothing was captured. *)
Definition reported_profile (o : proc_outcome) : str :=
  match o with
  | Exited _ stdout => next_truthy (map strip (splitlines stdout)) []
  | TimedOut => []
  | LaunchFailed => []
  end.

(** A character that the shell-word splitter copies as it is. *)
Definition shlex_plain (c : char) : bool :=
  negb (shlex_whitespace c) && negb (shlex_quote c) && negb (c =? BACKSLASH).

(** The cleaning step in the words of the specification: the asterisk, a
    colon at the end of the line and the surrounding whitespace go, every
    other character stays. *)
Definition drop_trailing (c : char) (s : str) : str :=
  match rev s with
  | x :: r => if x =? c then rev r else s
  | [] => []
  end.

Definition clean_spec (line : str) : str :=
  strip (drop_trailing COLON (strip (replace STAR [] line))).

(** Words joined by single spaces, the shape of the command lines. *)
Fixpoint join_space (ws : list str) : str :=
  match ws with
  | [] => []
  | [w] => w
  | w :: ws' => w ++ SPACE :: join_space ws'
  end.

Definition plain_word (w : str) : Prop :=
  w <> [] /\ forallb shlex_plain w = true.

(** A computation that leaves the theme and its force flag as they are,
    whatever it returns or raises. *)
Definition keeps_theme {A} (m : M A) : Prop :=
  forall s,
    system_theme (snd (m s)) = system_theme s /\
    system_theme_force (snd (m s)) = system_theme_force s.

(** Sample worlds and states used to instantiate the statements. *)
Definition world (o : proc_outcome) : env :=
  {| run := fun _ => o;
     listdir := fun _ => Some [];
     lower := fun x => x;
     APP_PATH := lit "/opt/pprofiler";
     fsencodable := fun _ => true |}.

Definition tray (theme : str) (force : bool) (current : str) : state :=
  {| system_theme := theme;
     system_theme_force := force;
     systray_icon_state :=
       [(lit "performance", Some ArtIcon);
        (lit "power-saver", Some ArtIcon);
        (lit "balanced", Some ArtIcon)];
     current_profile := current;
     trace := [] |}.

(** ** Start-up, the profile menu and the poll loop *)

Definition with_system_theme_force (v : bool) (s : state) : state :=
  {| system_theme := system_theme s; system_theme_force := v;
     systray_icon_state := systray_icon_state s;
     current_profile := current_profile s; trace := trace s |}.

(** The globals as the module body leaves them, before the [__main__]
    block runs: no theme, no forcing, no icon loaded. *)
Definition CONF_initial : state :=
  {| system_theme := [];
     system_theme_force := false;
     systray_icon_state :=
       [(lit "performance", None); (lit "power-saver", None);
        (lit "balanced", None)];
     current_profile := [];
     trace := [] |}.

(** The two menus of the tray icon, and the handlers bound to the two
    mouse buttons by [SystrayIcon.__init__]; [reverse] is
    [CONF['systray.mouse.reverse']]. *)
Inductive click_handler : Type := on_left_click | on_right_click.

Definition taskbar_bindings (reverse : bool) : click_handler * click_handler :=
  (if negb reverse then on_left_click else on_right_click,
   if negb reverse then on_right_click else on_left_click).

(** One entry of the menu built by [create_left_click_menu]: the label
    given to [AppendRadioItem], whether [Check] was called on the item,
    and the profile captured by the handler bound to it. *)
Record menu_item : Type := {
  label : str;
  checked : bool;
  bound_profile : str
}.

(** One timer event: the world at that moment and the two appearance
    answers. *)
Record tick : Type := {
  tick_env : env;
  tick_dark_check : bool;
  tick_dark_refresh : bool
}.

Section Application.
Variable e : env.

Local Open Scope py_scope.

(** [SystrayIcon.__init__], after the two [Bind] calls. *)
Definition SystrayIcon_init : M unit :=
  modify (with_current_profile []) ;;
  update_icon e.

Definition create_left_click_menu : M (list menu_item) :=
  r <- get_profiles e ;;
  a <- get_active_profile e ;;
  let active_profile := profile a in
  ret (fold_left
         (fun menu profile =>
            menu ++ [{| label := profile;
                        checked := str_eqb profile active_profile;
                        bound_profile := profile |}])
         (profiles r) []).

(** The handler bound to a menu item: [lambda event, p=profile:
    self.powerctl.set_profile(p)]. *)
Definition on_menu_item (item : menu_item) : M bool :=
  set_profile e (bound_profile item).

(** [MainApp.OnInit]; the timer is started last. *)
Definition OnInit (is_dark : bool) : M bool :=
  set_theme_style is_dark ;;
  set_icons e ;;
  icons <- gets systray_icon_state ;;
  match dict_lookup (lit "balanced") icons with
  | None => raise KeyError
  | Some _ => SystrayIcon_init ;; ret true
  end.

(** The [__main__] block, from the parsed arguments on. *)
Definition main (mouse_reverse : bool) (force_theme : option str)
    (is_dark : bool) : M bool :=
  (if mouse_reverse then logger (lit "Info: Mouse buttons reversed.")
   else ret tt) ;;
  (match force_theme with
   | Some theme =>
       if truthy theme then
         modify (with_system_theme_force true) ;;
         modify (with_system_theme theme) ;;
         logger (lit "Forcing icon theme: " ++ theme)
       else ret tt
   | None => ret tt
   end) ;;
  OnInit is_dark.
End Application.

(** The timer events of a run, one after the other; an exception raised
    by a handler ends that handler only, and the globals stay as the
    handler left them. *)
Definition poll (ticks : list tick) (s : state) : state :=
  fold_left
    (fun s t =>
       snd (on_timer (tick_env t) (tick_dark_check t) (tick_dark_refresh t) s))
    ticks s.

(** ** Further vocabulary *)

(** Every key of the icon table has an icon. *)
Definition icons_loaded (icons : dict (option Icon)) : Prop :=
  Forall (fun kv => snd kv <> None) icons.

(** Any call but a [SetIcon] without an icon. *)
Definition has_icon (a : action) : Prop :=
  match a with
  | SetIcon None _ => False
  | _ => True
  end.

(** A name as the profile list hands it out: not empty, no whitespace at
    its ends, no line boundary, no asterisk and no colon. *)
Definition clean_name (n : str) : Prop :=
  n <> [] /\ trimmed n /\ no_linebreak n /\ ~ In STAR n /\ ~ In COLON n.

(** Whitespace that stays on its line. *)
Definition indent (w : str) : Prop :=
  forallb isspace w = true /\ no_linebreak w.

(** The lines that [powerprofilesctl list] prints: the header of a
    profile (marked with an asterisk when it is the active one), a detail
    line below a header, and a blank line. *)
Inductive list_line : Type :=
  | Header (ind : str) (active : bool) (name : str)
  | Detail (ind : str) (text : str)
  | BlankLine (ind : str).

Definition header_text (active : bool) (name : str) : str :=
  (if active then lit "* " else []) ++ name ++ [COLON].

Definition raw_line (l : list_line) : str :=
  match l with
  | Header ind active name => ind ++ header_text active name
  | Detail ind text => ind ++ text
  | BlankLine ind => ind
  end.

Definition header_names (ls : list list_line) : list str :=
  flat_map (fun l => match l with Header _ _ name => [name] | _ => [] end) ls.

Definition well_formed_line (l : list_line) : Prop :=
  match l with
  | Header ind active name =>
      indent ind /\ clean_name name /\
      (forall x, In x CONF.powerprofilesctl_excluded_lines ->
                 contains x (name ++ [COLON]) = false)
  | Detail ind text =>
      indent ind /\ trimmed text /\ no_linebreak text /\
      (exists x, In x CONF.powerprofilesctl_excluded_lines /\
                 contains x text = true)
  | BlankLine ind => indent ind
  end.

(** A sample of that output. *)
Definition sample_list_output : list list_line :=
  [Header [] true (lit "performance");
   Detail (lit "    ") (lit "CpuDriver: intel_pstate");
   Detail (lit "    ") (lit "Degraded:   no");
   BlankLine [];
   Header (lit "  ") false (lit "balanced");
   Detail (lit "    ") (lit "PlatformDriver: platform_profile");
   BlankLine [];
   Header (lit "  ") false (lit "power-saver")].

(** A world whose answer depends on the command. *)
Definition world_of (on_list on_get on_set : proc_outcome) : env :=
  {| run := fun argv =>
              match argv with
              | [_; verb] =>
                  if str_eqb verb (lit "list") then on_list else on_get
              | _ => on_set
              end;
     listdir := fun _ => Some [lit "balanced.png"; lit "README.txt"];
     lower := fun x => x;
     APP_PATH := lit "/opt/pprofiler";
     fsencodable := fun _ => true |}.

(** The two passes of [set_icons] over the icon table: the body of the
    loop over the image files of directory [dir], and the body of the
    loop that fills the keys left without an icon. *)
Definition icon_step (dir : str) (icons : dict (option Icon)) (image_file : str)
    : dict (option Icon) :=
  let img_tmp := split_head DOT image_file in
  if dict_mem img_tmp icons
  then dict_set img_tmp (Some (Loaded (path_join dir image_file))) icons
  else icons.

Definition fill_default (kv : str * option Icon) : str * option Icon :=
  match snd kv with
  | None => (fst kv, Some ArtIcon)
  | Some _ => kv
  end.

(** The image files of a listing that [set_icons] loads under key [k]. *)
Definition images_for (e : env) (k : str) (names : list str) : list str :=
  filter (fun x => endswith (lit ".png") (lower e x) &&
                   str_eqb (split_head DOT x) k) names.

(** The profile list read off the outcome of the list command: the
    cleaned lines that pass the filter, none when nothing was captured. *)
Definition listed_profiles (o : proc_outcome) : list str :=
  match o with
  | Exited _ stdout =>
      profiles_of CONF.powerprofilesctl_excluded_lines
        (map strip (splitlines stdout))
  | TimedOut => []
  | LaunchFailed => []
  end.

(** ** The command bridge, for every behaviour of the child *)

(** What the started process does: it exits before the time limit with
    an exit code, having written bytes that decode as text ([Some]) or
    not ([None]); or it is still running at the time limit and exits
    later; or it never exits. *)
Inductive child : Type :=
  | Exits_in_time (returncode : Z) (stdout : option str)
  | Exits_late
  | Never_exits.

(** What [Popen] does with an exec vector it accepts: it starts the
    process, or raises [OSError]. *)
Inductive launch : Type :=
  | Started (c : child)
  | Refused.

(** How a call ends for its caller; [Blocked]: it never returns. *)
Inductive ending (A : Type) : Type :=
  | Returned (a : A)
  | Raised (x : exn)
  | Blocked.

Arguments Returned {A} a.
Arguments Raised {A} x.
Arguments Blocked {A}.

(** [parser(command)] as its caller sees it.  With [text=True] the
    captured bytes are decoded when [communicate] returns, and bytes
    that do not decode raise [UnicodeDecodeError].  When
    [TimeoutExpired] is raised the [with] block is left through
    [Popen.__exit__], which waits for the child without ending it, so
    the [except] clause runs once the child has exited. *)
Definition parser_ending (e : env) (start : list str -> launch)
    (command : str) : ending parsed :=
  match shlex_split command with
  | None => Raised ValueError
  | Some argv =>
      match argv with
      | [] => Raised IndexError
      | _ :: _ =>
          if forallb (accepted e) argv then
            match start argv with
            | Started (Exits_in_time returncode (Some stdout)) =>
                Returned {| error_code := str_of_int returncode;
                            output := map strip (splitlines stdout) |}
            | Started (Exits_in_time _ None) => Raised ValueError
            | Started Exits_late =>
                Returned {| error_code := lit "1"; output := [] |}
            | Started Never_exits => Blocked
            | Refused => Raised OSError
            end
          else Raised ValueError
      end
  end.

(** The behaviours that [proc_outcome] covers. *)
Definition seen (l : launch) : option proc_outcome :=
  match l with
  | Started (Exits_in_time returncode (Some stdout)) =>
      Some (Exited returncode stdout)
  | Started (Exits_in_time _ None) => None
  | Started Exits_late => Some TimedOut
  | Started Never_exits => None
  | Refused => Some LaunchFailed
  end.

Definition ending_of {A} (r : exn + A) : ending A :=
  match r with
  | inl x => Raised x
  | inr a => Returned a
  end.

(** A child that ignores its arguments. *)
Definition always (c : child) : list str -> launch := fun _ => Started c.

(** ** The profile list, stated without the code *)

(** [x] occurs in [s]. *)
Definition substring (x s : str) : Prop := exists a b, s = a ++ x ++ b.

(** A line that holds one of the exclusion markers. *)
Definition marked (line : str) : Prop :=
  exists x, In x CONF.powerprofilesctl_excluded_lines /\ substring x line.

(** A line without its asterisks and colons. *)
Definition undecorated (line : str) : str :=
  filter (fun c => negb (c =? STAR) && negb (c =? COLON)) line.

(** [profile_set_of raws ps]: going through the raw lines in order, a
    line that is blank or marked once its surrounding whitespace is
    removed gives nothing, and any other line gives one entry, namely
    that line without asterisks and colons and then without the
    whitespace around what is left. *)
Inductive profile_set_of : list str -> list str -> Prop :=
  | profile_set_nil : profile_set_of [] []
  | profile_set_drop (raw t : str) (raws ps : list str) :
      stripped_from raw t -> t = [] \/ marked t ->
      profile_set_of raws ps -> profile_set_of (raw :: raws) ps
  | profile_set_keep (raw t p : str) (raws ps : list str) :
      stripped_from raw t -> t <> [] -> ~ marked t ->
      stripped_from (undecorated t) p ->
      profile_set_of raws ps -> profile_set_of (raw :: raws) (p :: ps).

(** The output lines read off the outcome of a command. *)
Definition output_lines (o : proc_outcome) : list str :=
  match o with
  | Exited _ stdout => map strip (splitlines stdout)
  | TimedOut => []
  | LaunchFailed => []
  end.

(** * Properties *)

(** ** Sample evaluations of the string primitives *)

Example splitlines_samples :
  splitlines [] = [] /\
  splitlines [LF] = [[]] /\
  splitlines (lit "a" ++ [LF] ++ [LF] ++ lit "b") = [lit "a"; []; lit "b"] /\
  splitlines (lit "a" ++ [CR; LF] ++ lit "b" ++ [LF]) = [lit "a"; lit "b"] /\
  splitlines (lit "a" ++ [LF; CR] ++ lit "b") = [lit "a"; []; lit "b"].
Proof. repeat split; reflexivity. Qed.

Example strip_samples :
  strip (lit "  balanced  ") = lit "balanced" /\
  strip (lit "   ") = [] /\
  strip (lit " a b ") = lit "a b" /\
  str_of_int (-9) = lit "-9" /\ str_of_int 0 = lit "0".
Proof. repeat split; reflexivity. Qed.

Example shlex_split_samples :
  shlex_split (lit "/usr/bin/powerprofilesctl set power-saver")
  = Some [lit "/usr/bin/powerprofilesctl"; lit "set"; lit "power-saver"] /\
  shlex_split (lit "a  'b c'  d\ e '' ") = Some [lit "a"; lit "b c"; lit "d e"; []] /\
  shlex_split (lit "a 'b") = None.
Proof. repeat split; reflexivity. Qed.

(** ** Strings *)

Lemma str_eqb_refl (a : str) : str_eqb a a = true.
Proof.
  induction a as [|x a IH]; simpl; [reflexivity|].
  now rewrite N.eqb_refl, IH.
Qed.

Lemma str_eqb_eq (a b : str) : str_eqb a b = true <-> a = b.
Proof.
  split; [|intros ->; apply str_eqb_refl].
  revert b; induction a as [|x a IH]; intros [|y b]; simpl; try discriminate; auto.
  intros H. apply andb_true_iff in H as [Hx Hr].
  apply N.eqb_eq in Hx. f_equal; auto.
Qed.

Lemma str_eqb_neq (a b : str) : str_eqb a b = false <-> a <> b.
Proof.
  split.
  - intros H E. apply str_eqb_eq in E. congruence.
  - intros H. destruct (str_eqb a b) eqn:E; [|reflexivity].
    apply str_eqb_eq in E. contradiction.
Qed.

Lemma lit_inj (a b : string) : lit a = lit b -> a = b.
Proof.
  unfold lit. revert b.
  induction a as [|x a IH]; intros [|y b]; simpl; try discriminate; auto.
  intros H. injection H as Hx Hr.
  f_equal; [|auto].
  rewrite <- (ascii_N_embedding x), <- (ascii_N_embedding y). now rewrite Hx.
Qed.

(** *** [lstrip], [rstrip], [strip] *)

Lemma lstrip_split (s : str) :
  exists l, s = l ++ lstrip s /\ forallb isspace l = true.
Proof.
  induction s as [|c s [l [E Hl]]]; simpl.
  - exists []. split; reflexivity.
  - destruct (isspace c) eqn:Hc.
    + exists (c :: l). simpl. rewrite Hc, Hl. split; [now f_equal|reflexivity].
    + exists []. split; reflexivity.
Qed.

Lemma lstrip_starts (s : str) : starts_space (lstrip s) = false.
Proof.
  induction s as [|c s IH]; simpl; [reflexivity|].
  destruct (isspace c) eqn:Hc; [assumption|simpl; assumption].
Qed.

Lemma lstrip_id (s : str) : starts_space s = false -> lstrip s = s.
Proof. destruct s as [|c s]; simpl; [reflexivity|]. now intros ->. Qed.

Lemma lstrip_snoc (s : str) (c : char) :
  isspace c = false -> lstrip (s ++ [c]) = lstrip s ++ [c].
Proof.
  intros Hc. induction s as [|x s IH]; simpl.
  - now rewrite Hc.
  - destruct (isspace x); [assumption|reflexivity].
Qed.

Lemma rstrip_split (s : str) :
  exists r, s = rstrip s ++ r /\ forallb isspace r = true.
Proof.
  unfold rstrip. destruct (lstrip_split (rev s)) as [l [E Hl]].
  exists (rev l). split.
  - rewrite <- rev_app_distr, <- E. now rewrite rev_involutive.
  - rewrite forallb_forall in *. intros x Hx. apply Hl. now apply in_rev.
Qed.

Lemma rstrip_ends (s : str) : starts_space (rev (rstrip s)) = false.
Proof. unfold rstrip. rewrite rev_involutive. apply lstrip_starts. Qed.

Lemma rstrip_id (s : str) : starts_space (rev s) = false -> rstrip s = s.
Proof.
  intros H. unfold rstrip. rewrite lstrip_id by assumption. apply rev_involutive.
Qed.

Lemma rstrip_cons (c : char) (s : str) :
  isspace c = false -> rstrip (c :: s) = c :: rstrip s.
Proof.
  intros Hc. unfold rstrip. simpl.
  rewrite lstrip_snoc by assumption. now rewrite rev_app_distr.
Qed.

Lemma rstrip_starts (s : str) :
  starts_space s = false -> starts_space (rstrip s) = false.
Proof.
  destruct s as [|c s]; simpl; intros H; [reflexivity|].
  now rewrite rstrip_cons.
Qed.

Lemma strip_trimmed (s : str) : trimmed (strip s).
Proof.
  split.
  - apply rstrip_starts, lstrip_starts.
  - apply rstrip_ends.
Qed.

Lemma strip_id (s : str) : trimmed s -> strip s = s.
Proof.
  intros [H1 H2]. unfold strip. rewrite lstrip_id by assumption.
  now apply rstrip_id.
Qed.

Lemma strip_idempotent (s : str) : strip (strip s) = strip s.
Proof. apply strip_id, strip_trimmed. Qed.

Lemma strip_stripped_from (s : str) : stripped_from s (strip s).
Proof.
  destruct (lstrip_split s) as [l [El Hl]].
  destruct (rstrip_split (lstrip s)) as [r [Er Hr]].
  exists l, r. repeat split; try assumption.
  - fold (strip s) in Er. now rewrite <- Er.
  - apply rstrip_starts, lstrip_starts.
  - apply rstrip_ends.
Qed.

Lemma strip_incl (s : str) (c : char) : In c (strip s) -> In c s.
Proof.
  destruct (strip_stripped_from s) as [l [r [E _]]].
  intros H. rewrite E. apply in_or_app. right. apply in_or_app. now left.
Qed.

(** *** [replace] with an empty replacement *)

Lemma replace_empty_filter (old : char) (s : str) :
  replace old [] s = filter (fun c => negb (c =? old)) s.
Proof.
  unfold replace. induction s as [|c s IH]; simpl; [reflexivity|].
  rewrite IH. now destruct (c =? old).
Qed.

Lemma replace_empty_absent (old : char) (s : str) :
  ~ In old s -> replace old [] s = s.
Proof.
  intros H. unfold replace. induction s as [|c s IH]; simpl; [reflexivity|].
  destruct (N.eqb_spec c old) as [->|Hne].
  - exfalso. apply H. now left.
  - simpl. f_equal. apply IH. intros Hin. apply H. now right.
Qed.

Lemma replace_empty_in (old c : char) (s : str) :
  In c (replace old [] s) <-> In c s /\ c <> old.
Proof.
  rewrite replace_empty_filter, filter_In, negb_true_iff, N.eqb_neq. tauto.
Qed.

(** *** The cleaning step of [get_profiles] *)

Lemma clean_in (line : str) (c : char) :
  In c (clean line) -> In c line /\ c <> STAR /\ c <> COLON.
Proof.
  unfold clean. intros H. apply strip_incl in H.
  apply replace_empty_in in H as [H Hcolon].
  apply replace_empty_in in H as [H Hstar]. auto.
Qed.

Lemma clean_filter (line : str) :
  clean line =
  strip (filter (fun c => negb (c =? STAR) && negb (c =? COLON)) line).
Proof.
  unfold clean. rewrite !replace_empty_filter. f_equal.
  induction line as [|c line IH]; simpl; [reflexivity|].
  destruct (c =? STAR); simpl; [assumption|].
  destruct (c =? COLON); simpl; [assumption|now f_equal].
Qed.

Lemma startswith_in (p s : str) (c : char) :
  startswith p s = true -> In c p -> In c s.
Proof.
  revert s. induction p as [|a p IH]; intros [|b s]; simpl; try easy.
  intros H [->|Hin]; apply andb_true_iff in H as [Hab Hr].
  - apply N.eqb_eq in Hab. now left.
  - right. now apply IH.
Qed.

Lemma contains_in (x s : str) (c : char) :
  contains x s = true -> In c x -> In c s.
Proof.
  induction s as [|b s IH]; simpl; intros H Hin.
  - rewrite orb_false_r in H. destruct x; [contradiction|discriminate].
  - apply orb_true_iff in H as [H|H].
    + exact (startswith_in x (b :: s) c H Hin).
    + right. now apply IH.
Qed.

Lemma any_map {A} (f : A -> bool) (l : list A) :
  any (map f l) = existsb f l.
Proof.
  unfold any. induction l as [|a l IH]; simpl; [reflexivity|]. now rewrite IH.
Qed.

Lemma keep_true (excluded : list str) (line : str) :
  keep excluded line = true <->
  line <> [] /\ forall x, In x excluded -> contains x line = false.
Proof.
  unfold keep, any. rewrite andb_true_iff, negb_true_iff. split.
  - intros [Ht Hex]. split; [now destruct line|].
    intros x Hx. destruct (contains x line) eqn:E; [|reflexivity].
    assert (existsb (fun b => b) (map (fun x => contains x line) excluded) = true);
      [|congruence].
    apply existsb_exists. exists true. split; [|reflexivity].
    apply in_map_iff. now exists x.
  - intros [Hne Hall]. split; [now destruct line|].
    destruct (existsb _ _) eqn:E; [|reflexivity].
    apply existsb_exists in E as [b [Hb ->]].
    apply in_map_iff in Hb as [x [Hc Hx]]. rewrite (Hall x Hx) in Hc. discriminate.
Qed.

Lemma filter_keep (excluded : list str) (lines : list str) :
  filter (keep excluded) lines =
  filter (fun l => truthy l)
    (filter (fun l => negb (existsb (fun x => contains x l) excluded)) lines).
Proof.
  induction lines as [|l ls IH]; [reflexivity|].
  cbn [filter]. unfold keep at 1. rewrite any_map.
  destruct (existsb _ excluded); cbn [negb]; rewrite ?andb_false_r, ?andb_true_r.
  - exact IH.
  - cbn [filter]. destruct (truthy l); [now f_equal|exact IH].
Qed.

Lemma excluded_lines_have_colon (x : str) :
  In x CONF.powerprofilesctl_excluded_lines -> In COLON x.
Proof.
  simpl. intros [<-|[<-|[<-|[]]]]; vm_compute; tauto.
Qed.

(** *** Occurrence of a marker, stated without the code *)

Lemma startswith_spec (p s : str) :
  startswith p s = true <-> exists b, s = p ++ b.
Proof.
  revert s. induction p as [|a p IH]; intros s; cbn [startswith].
  - split; [intros _; now exists s|reflexivity].
  - destruct s as [|b s].
    + split; [discriminate|intros [t E]; discriminate].
    + rewrite andb_true_iff, N.eqb_eq, IH. split.
      * intros [-> [t ->]]. now exists t.
      * intros [t E]. injection E as -> ->. split; [reflexivity|now exists t].
Qed.

Lemma contains_spec (x s : str) : contains x s = true <-> substring x s.
Proof.
  unfold substring. induction s as [|c s IH]; cbn [contains].
  - rewrite orb_false_r, startswith_spec. split.
    + intros [b E]. now exists [], b.
    + intros [a [b E]]. destruct a; [now exists b|discriminate].
  - rewrite orb_true_iff, startswith_spec, IH. split.
    + intros [[b E]|[a [b E]]]; [now exists [], b|].
      exists (c :: a), b. cbn [app]. now rewrite E.
    + intros [a [b E]]. destruct a as [|c' a]; [left; now exists b|].
      right. injection E as -> E. now exists a, b.
Qed.

Lemma marked_has_colon (line : str) : marked line -> In COLON line.
Proof.
  intros [x [Hx Hs]]. apply contains_spec in Hs.
  apply (contains_in x); [exact Hs|now apply excluded_lines_have_colon].
Qed.

Lemma keep_spec (line : str) :
  keep CONF.powerprofilesctl_excluded_lines line = true <->
  line <> [] /\ ~ marked line.
Proof.
  rewrite keep_true. split; intros [Hne H]; (split; [exact Hne|]).
  - intros [x [Hx Hs]]. apply contains_spec in Hs. rewrite (H x Hx) in Hs.
    discriminate.
  - intros x Hx. destruct (contains x line) eqn:E; [|reflexivity].
    exfalso. apply H. exists x. split; [exact Hx|now apply contains_spec].
Qed.

Lemma keep_false_spec (line : str) :
  keep CONF.powerprofilesctl_excluded_lines line = false ->
  line = [] \/ marked line.
Proof.
  destruct line as [|c line]; [now left|]. intros H. right.
  unfold keep in H. cbn [truthy andb] in H. apply negb_false_iff in H.
  rewrite any_map in H. apply existsb_exists in H as [x [Hx Hc]].
  exists x. split; [exact Hx|now apply contains_spec].
Qed.

Lemma clean_undecorated (line : str) :
  stripped_from (undecorated line) (clean line).
Proof. rewrite clean_filter. apply strip_stripped_from. Qed.

(** ** The command lines of [PowerCtl] *)

Lemma list_command_argv :
  shlex_split (command ++ lit " " ++ CONF.cmds_list) = Some list_argv.
Proof. reflexivity. Qed.

Lemma get_command_argv :
  shlex_split (command ++ lit " " ++ CONF.cmds_get) = Some get_argv.
Proof. reflexivity. Qed.

Lemma get_profiles_exited (e : env) (s : state) (rc : Z) (stdout : str) :
  run e list_argv = Exited rc stdout ->
  get_profiles e s =
  (inr {| profiles_error_code := str_of_int rc;
          profiles := profiles_of CONF.powerprofilesctl_excluded_lines
                        (map strip (splitlines stdout)) |},
   with_trace (trace s ++ [Popen list_argv]) s).
Proof.
  intros H. unfold get_profiles, parser. rewrite list_command_argv.
  unfold bind, emit, modify, ret. simpl. now rewrite H.
Qed.

Lemma get_active_profile_run (e : env) (s : state) :
  get_active_profile e s =
  (match run e get_argv with
   | Exited rc stdout =>
       inr {| active_error_code := str_of_int rc;
              profile := reported_profile (run e get_argv) |}
   | TimedOut =>
       inr {| active_error_code := lit "1";
              profile := reported_profile (run e get_argv) |}
   | LaunchFailed => inl OSError
   end,
   with_trace (trace s ++ [Popen get_argv]) s).
Proof.
  unfold get_active_profile, parser. rewrite get_command_argv.
  unfold bind, emit, modify, ret, raise. simpl.
  destruct (run e get_argv); reflexivity.
Qed.

(** ** The claims on the profile list *)

(** C10. The cleaning step of [get_profiles] is idempotent: applied to a
    name it has produced, it gives the same name back. *)
Theorem clean_idempotent (line : str) : clean (clean line) = clean line.
Proof.
  unfold clean at 1.
  rewrite (replace_empty_absent STAR).
  - rewrite (replace_empty_absent COLON).
    + unfold clean. apply strip_idempotent.
    + intros H. apply clean_in in H. tauto.
  - intros H. apply clean_in in H. tauto.
Qed.

(** C4, as the specification words it, fails: a colon inside a surviving
    line is neither the asterisk, nor a colon at the end, nor surrounding
    whitespace, and it is removed all the same. *)
Lemma clean_inner_colon_counterexample :
  keep CONF.powerprofilesctl_excluded_lines (lit "a:b") = true /\
  clean (lit "a:b") = lit "ab" /\
  clean_spec (lit "a:b") = lit "a:b" /\
  clean (lit "a:b") <> clean_spec (lit "a:b").
Proof. repeat split; try reflexivity. discriminate. Qed.

(** C4, amended. The cleaning step deletes every asterisk and every
    colon of the line, wherever they stand, and then the whitespace at
    both ends of what is left; every other character is kept, unchanged
    and in order. *)
Theorem clean_removes_every_marker (line : str) :
  stripped_from
    (filter (fun c => negb (c =? STAR) && negb (c =? COLON)) line)
    (clean line)
  /\ ~ In STAR (clean line) /\ ~ In COLON (clean line).
Proof.
  split; [rewrite clean_filter; apply strip_stripped_from|].
  split; intros H; apply clean_in in H; tauto.
Qed.

(** C7. The emptiness test of [get_profiles] is made on the line before
    it is cleaned, so a line of decoration characters only gives an empty
    entry: when the list command prints the one line [*], the profile
    set has one entry, the empty string. *)
Theorem get_profiles_empty_entry :
  fst (get_profiles (world (Exited 0 (unlines [lit "*"]))) (tray (lit "dark") false []))
  = inr {| profiles_error_code := lit "0"; profiles := [[]] |}
  /\ keep CONF.powerprofilesctl_excluded_lines (lit "*") = true
  /\ clean (lit "*") = [].
Proof. repeat split; reflexivity. Qed.

(** Every entry of the profile set is the cleaning of a non-empty line
    that holds no exclusion marker. *)
Lemma profiles_of_origin (excluded : list str) (lines : list str) (p : str) :
  In p (profiles_of excluded lines) ->
  exists line,
    In line lines /\ p = clean line /\ line <> [] /\
    forall x, In x excluded -> contains x line = false.
Proof.
  unfold profiles_of. intros H. apply in_map_iff in H as [line [E Hin]].
  apply filter_In in Hin as [Hin Hk]. apply keep_true in Hk as [Hne Hall].
  exists line. auto.
Qed.

(** ** The command bridge *)

Lemma str_of_int_zero (rc : Z) : str_of_int rc = lit "0" <-> rc = 0%Z.
Proof.
  split; [|intros ->; reflexivity].
  unfold str_of_int. intros H. apply lit_inj in H.
  assert (Z.to_int rc <> Decimal.Pos Decimal.Nil) as Hp.
  { destruct rc; simpl; try discriminate;
      intros E; injection E; apply Unsigned.to_uint_nonnil. }
  assert (Z.to_int rc <> Decimal.Neg Decimal.Nil) as Hn.
  { destruct rc; simpl; try discriminate;
      intros E; injection E; apply Unsigned.to_uint_nonnil. }
  pose proof (NilZero.isi _ Hp Hn) as E. rewrite H in E.
  apply DecimalZ.to_int_inj. simpl in E. now injection E.
Qed.

Lemma is_success_exit_code (rc : Z) :
  is_success (str_of_int rc) = true <-> rc = 0%Z.
Proof. unfold is_success. rewrite str_eqb_eq. apply str_of_int_zero. Qed.

Lemma splitlines_line (l rest : str) :
  no_linebreak l -> splitlines (l ++ LF :: rest) = l :: splitlines rest.
Proof.
  unfold no_linebreak. induction l as [|c l IH]; intros H.
  - destruct rest; reflexivity.
  - cbn [forallb] in H. apply andb_true_iff in H as [Hc Hl].
    apply negb_true_iff in Hc.
    cbn [app splitlines]. rewrite Hc, (IH Hl). reflexivity.
Qed.

Lemma splitlines_unlines (ls : list str) :
  Forall no_linebreak ls -> splitlines (unlines ls) = ls.
Proof.
  unfold unlines. induction 1 as [|l ls Hl _ IH]; [reflexivity|].
  cbn [map List.concat]. rewrite <- app_assoc. cbn [app].
  rewrite splitlines_line by assumption. now rewrite IH.
Qed.

Lemma map_strip_stripped (ls : list str) :
  Forall2 stripped_from ls (map strip ls).
Proof.
  induction ls as [|l ls IH]; constructor; [apply strip_stripped_from|exact IH].
Qed.

Lemma accepted_list_argv (e : env) : forallb (accepted e) list_argv = true.
Proof. reflexivity. Qed.

Lemma accepted_get_argv (e : env) : forallb (accepted e) get_argv = true.
Proof. reflexivity. Qed.

Lemma parser_run (e : env) (cmd : str) (s : state) :
  parser e cmd s =
  match shlex_split cmd with
  | None => (inl ValueError, s)
  | Some argv =>
      (match argv with
       | [] => inl IndexError
       | _ :: _ =>
           if forallb (accepted e) argv then
             match run e argv with
             | Exited rc stdout =>
                 inr {| error_code := str_of_int rc;
                        output := map strip (splitlines stdout) |}
             | TimedOut => inr {| error_code := lit "1"; output := [] |}
             | LaunchFailed => inl OSError
             end
           else inl ValueError
       end,
       with_trace (trace s ++ [Popen argv]) s)
  end.
Proof.
  unfold parser. destruct (shlex_split cmd) as [argv|]; [|reflexivity].
  unfold bind, emit, modify, ret, raise. cbn [fst snd].
  destruct argv as [|a argv]; [reflexivity|].
  destruct (forallb (accepted e) (a :: argv)); [|reflexivity].
  destruct (run e (a :: argv)); reflexivity.
Qed.

(** On the behaviours that [proc_outcome] covers, [parser] ends as
    [parser_ending] says. *)
Lemma parser_ending_agrees (e : env) (start : list str -> launch) (cmd : str)
    (s : state) :
  (forall argv, seen (start argv) = Some (run e argv)) ->
  parser_ending e start cmd = ending_of (fst (parser e cmd s)).
Proof.
  intros Hseen. rewrite parser_run. unfold parser_ending.
  destruct (shlex_split cmd) as [argv|]; [|reflexivity]. cbn [fst].
  destruct argv as [|a argv]; [reflexivity|].
  destruct (forallb (accepted e) (a :: argv)); [|reflexivity].
  specialize (Hseen (a :: argv)).
  destruct (start (a :: argv)) as [[rc [out|]| |]|]; cbn [seen] in Hseen;
    try discriminate; injection Hseen as <-; reflexivity.
Qed.

(** C6, as stated, fails.  A process that exits in time with code 0
    after writing bytes that do not decode as text makes [parser] raise,
    so no success is returned; and when the time limit expires on a
    process that never exits, [parser] does not return at all. *)
Lemma parser_contract_counterexample :
  parser_ending (world TimedOut) (always (Exits_in_time 0 None))
    (lit "/usr/bin/powerprofilesctl get") = Raised ValueError /\
  parser_ending (world TimedOut) (always Never_exits)
    (lit "/usr/bin/powerprofilesctl get") = Blocked.
Proof. split; reflexivity. Qed.

(** C6, amended.  For a command line that splits into a non-empty exec
    vector that [Popen] accepts: when the time limit expires and the
    process exits afterwards, [parser] returns a failure with no output
    lines; when the process exits in time and its output decodes as
    text, the result is a success exactly when the exit code is 0, and
    the output lines are the lines of the captured standard output, each
    with the whitespace at its two ends removed and nothing else changed,
    in order, blank lines included; when the output does not decode,
    [parser] raises. *)
Theorem parser_contract (e : env) (start : list str -> launch) (cmd : str)
    (argv : list str) :
  shlex_split cmd = Some argv ->
  argv <> [] ->
  forallb (accepted e) argv = true ->
  (start argv = Started Exits_late ->
     parser_ending e start cmd
     = Returned {| error_code := lit "1"; output := [] |} /\
     is_success (lit "1") = false)
  /\
  (forall rc stdout,
     start argv = Started (Exits_in_time rc (Some stdout)) ->
     exists r,
       parser_ending e start cmd = Returned r /\
       (is_success (error_code r) = true <-> rc = 0%Z) /\
       Forall2 stripped_from (splitlines stdout) (output r) /\
       (forall ls, Forall no_linebreak ls -> stdout = unlines ls ->
                   Forall2 stripped_from ls (output r)))
  /\
  (forall rc,
     start argv = Started (Exits_in_time rc None) ->
     parser_ending e start cmd = Raised ValueError).
Proof.
  intros Hsplit Hne Hacc. unfold parser_ending. rewrite Hsplit.
  destruct argv as [|a argv]; [contradiction|]. rewrite Hacc.
  split; [|split].
  - intros ->. split; reflexivity.
  - intros rc stdout ->. eexists. split; [reflexivity|].
    cbn [error_code output].
    split; [apply is_success_exit_code|].
    split; [apply map_strip_stripped|].
    intros ls Hls ->. rewrite splitlines_unlines by assumption.
    apply map_strip_stripped.
  - intros rc ->. reflexivity.
Qed.

Lemma parser_contract_witness :
  (exists r,
     parser_ending (world TimedOut)
       (always (Exits_in_time 0
                  (Some (unlines [lit " balanced "; []; [TAB] ++ lit "x"]))))
       (lit "/usr/bin/powerprofilesctl get") = Returned r /\
     is_success (error_code r) = true /\
     Forall2 stripped_from [lit " balanced "; []; [TAB] ++ lit "x"] (output r)) /\
  parser_ending (world TimedOut) (always Exits_late)
    (lit "/usr/bin/powerprofilesctl get")
  = Returned {| error_code := lit "1"; output := [] |} /\
  parser_ending (world TimedOut) (always (Exits_in_time 2 None))
    (lit "/usr/bin/powerprofilesctl get") = Raised ValueError.
Proof.
  assert (get_argv <> []) as Hne by discriminate.
  split; [|split].
  - destruct (parser_contract (world TimedOut)
                (always (Exits_in_time 0
                   (Some (unlines [lit " balanced "; []; [TAB] ++ lit "x"]))))
                (lit "/usr/bin/powerprofilesctl get") get_argv
                eq_refl Hne eq_refl) as [_ [H _]].
    destruct (H 0%Z _ eq_refl) as [r [Hr [Hs [_ Ho]]]].
    exists r. split; [exact Hr|]. split; [now apply Hs|].
    apply Ho; [|reflexivity]. repeat constructor.
  - destruct (parser_contract (world TimedOut) (always Exits_late)
                (lit "/usr/bin/powerprofilesctl get") get_argv
                eq_refl Hne eq_refl) as [H _].
    exact (proj1 (H eq_refl)).
  - destruct (parser_contract (world TimedOut) (always (Exits_in_time 2 None))
                (lit "/usr/bin/powerprofilesctl get") get_argv
                eq_refl Hne eq_refl) as [_ [_ H]].
    exact (H 2%Z eq_refl).
Defined.

(** ** The active profile *)

Lemma next_truthy_spec (lines : list str) :
  (exists pre post,
     lines = pre ++ next_truthy lines [] :: post /\
     Forall (fun l => l = []) pre /\ next_truthy lines [] <> [])
  \/ (Forall (fun l => l = []) lines /\ next_truthy lines [] = []).
Proof.
  induction lines as [|l ls IH]; [right; split; [constructor|reflexivity]|].
  destruct l as [|c l]; cbn [next_truthy truthy].
  - destruct IH as [[pre [post [E [Hpre Hne]]]]|[Hall E]].
    + left. exists ([] :: pre), post. split; [cbn [app]; now f_equal|].
      split; [now constructor|assumption].
    + right. split; [now constructor|assumption].
  - left. exists [], ls. split; [reflexivity|]. split; [constructor|discriminate].
Qed.

(** C3, as stated, fails: a command that exits with a code other than 0
    after printing a line still gives that line as the profile. *)
Lemma get_active_profile_failed_counterexample :
  exists r,
    fst (get_active_profile (world (Exited 1 (unlines [lit "balanced"])))
           (tray [] false [])) = inr r /\
    is_success (active_error_code r) = false /\
    profile r = lit "balanced" /\
    profile r <> [].
Proof.
  eexists. split; [reflexivity|]. repeat split; try reflexivity. discriminate.
Qed.

(** C3, amended. [get_active_profile] returns the first non-empty
    trimmed line of what the command printed, whatever the exit code, and
    the empty string when there is no such line; after a timeout nothing
    is captured, so the profile is the empty string.  On the output made
    of an empty line, then "  balanced  ", then "power-saver", the
    profile is "balanced". *)
Theorem get_active_profile_first_nonempty (e : env) (s : state) :
  (forall rc stdout,
     run e get_argv = Exited rc stdout ->
     exists r,
       fst (get_active_profile e s) = inr r /\
       (let lines := map strip (splitlines stdout) in
        (exists pre post,
           lines = pre ++ profile r :: post /\
           Forall (fun l => l = []) pre /\ profile r <> [])
        \/ (Forall (fun l => l = []) lines /\ profile r = [])) /\
       (stdout = unlines [[]; lit "  balanced  "; lit "power-saver"] ->
        profile r = lit "balanced"))
  /\
  (run e get_argv = TimedOut ->
     exists r,
       fst (get_active_profile e s) = inr r /\
       is_success (active_error_code r) = false /\ profile r = []).
Proof.
  rewrite get_active_profile_run. cbn [fst]. split.
  - intros rc stdout Hrun. rewrite Hrun. eexists. split; [reflexivity|].
    cbn [profile reported_profile]. split; [apply next_truthy_spec|].
    intros ->. reflexivity.
  - intros Hrun. rewrite Hrun. eexists. split; [reflexivity|]. split; reflexivity.
Qed.

Lemma get_active_profile_first_nonempty_witness :
  (exists r,
     fst (get_active_profile
            (world (Exited 0 (unlines [[]; lit "  balanced  "; lit "power-saver"])))
            (tray [] false [])) = inr r /\
     profile r = lit "balanced") /\
  (exists r,
     fst (get_active_profile (world TimedOut) (tray [] false [])) = inr r /\
     profile r = []).
Proof.
  split.
  - destruct (get_active_profile_first_nonempty
                (world (Exited 0 (unlines [[]; lit "  balanced  "; lit "power-saver"])))
                (tray [] false [])) as [H _].
    destruct (H 0%Z _ eq_refl) as [r [Hr [_ Hp]]].
    exists r. split; [exact Hr|exact (Hp eq_refl)].
  - destruct (get_active_profile_first_nonempty (world TimedOut) (tray [] false []))
      as [_ H].
    destruct (H eq_refl) as [r [Hr [_ Hp]]].
    exists r. split; [exact Hr|exact Hp].
Defined.

(** ** Splitting a command line *)

Lemma shlex_plain_inv (c : char) :
  shlex_plain c = true ->
  shlex_whitespace c = false /\ shlex_quote c = false /\ (c =? BACKSLASH) = false.
Proof.
  unfold shlex_plain. rewrite !andb_true_iff, !negb_true_iff. tauto.
Qed.

Lemma shlex_read_word (w token rest : str) (quoted : bool) :
  forallb shlex_plain w = true ->
  shlex_read Word token quoted (w ++ rest) =
  shlex_read Word (token ++ w) quoted rest.
Proof.
  revert token. induction w as [|c w IH]; intros token H.
  - now rewrite app_nil_r.
  - cbn [forallb] in H. apply andb_true_iff in H as [Hc Hw].
    apply shlex_plain_inv in Hc as [H1 [H2 H3]].
    cbn [app shlex_read]. rewrite H1, H2, H3, (IH _ Hw).
    now rewrite <- app_assoc.
Qed.

Lemma shlex_read_blank (w rest : str) :
  plain_word w ->
  shlex_read Blank [] false (w ++ rest) = shlex_read Word w false rest.
Proof.
  intros [Hne H]. destruct w as [|c w]; [contradiction|].
  cbn [forallb] in H. apply andb_true_iff in H as [Hc Hw].
  apply shlex_plain_inv in Hc as [H1 [H2 H3]].
  cbn [app shlex_read]. rewrite H1, H2, H3.
  now rewrite (shlex_read_word w [c] rest false Hw).
Qed.

(** Plain words joined by single spaces are split back into the same
    words. *)
Lemma shlex_split_join_space (ws : list str) :
  Forall plain_word ws -> shlex_split (join_space ws) = Some ws.
Proof.
  unfold shlex_split. induction 1 as [|w ws Hw Hws IH]; [reflexivity|].
  assert (truthy w = true) as Ht by (destruct Hw as [Hne _]; now destruct w).
  destruct ws as [|w' ws].
  - cbn [join_space]. rewrite <- (app_nil_r w) at 1.
    rewrite shlex_read_blank by assumption. cbn [shlex_read]. now rewrite Ht.
  - change (join_space (w :: w' :: ws)) with (w ++ SPACE :: join_space (w' :: ws)).
    rewrite shlex_read_blank by assumption.
    cbn [shlex_read]. change (shlex_whitespace SPACE) with true. cbn iota.
    rewrite IH, Ht. reflexivity.
Qed.

Lemma set_command_argv (name : str) :
  plain_word name ->
  shlex_split (command ++ lit " " ++ CONF.cmds_set ++ lit " " ++ name)
  = Some (set_argv name).
Proof.
  intros H.
  change (command ++ lit " " ++ CONF.cmds_set ++ lit " " ++ name)
    with (join_space (set_argv name)).
  apply shlex_split_join_space.
  repeat constructor; try discriminate; try assumption; apply H.
Qed.

(** C9, as stated, fails: a name with a space in it reaches the process
    as two arguments. *)
Lemma set_profile_split_name_counterexample :
  trace (snd (set_profile (world (Exited 0 [])) (lit "power saver") (tray [] false [])))
  = [Print (lit "Set profile: power saver");
     Popen [CONF.powerprofilesctl; lit "set"; lit "power"; lit "saver"]]
  /\ [CONF.powerprofilesctl; lit "set"; lit "power"; lit "saver"]
     <> set_argv (lit "power saver").
Proof. split; [reflexivity|discriminate]. Qed.

Lemma accepted_set_argv (e : env) (name : str) :
  forallb (accepted e) [CONF.powerprofilesctl; lit "set"; name]
  = accepted e name.
Proof. cbn [forallb]. rewrite andb_true_r. reflexivity. Qed.

(** A name that [Popen] does not accept, such as one with a NUL
    character in it, makes [set_profile] raise [ValueError]. *)
Lemma set_profile_rejected_name (e : env) (s : state) (name : str) :
  name <> [] ->
  forallb shlex_plain name = true ->
  accepted e name = false ->
  fst (set_profile e name s) = inl ValueError.
Proof.
  intros Hne Hplain Hacc. unfold set_profile, bind at 1, logger, emit, modify.
  cbn [fst snd]. unfold bind.
  rewrite parser_run, (set_command_argv name (conj Hne Hplain)).
  unfold set_argv. rewrite accepted_set_argv, Hacc. reflexivity.
Qed.

(** C9, amended. For every non-empty profile name without whitespace,
    quote or backslash that [Popen] accepts as an argument (no NUL
    character, only characters the file-system encoding can encode),
    [set_profile] starts the set command with the name as the single
    last argument of the exec vector, and returns true exactly when the
    process ends with exit code 0 (false when the time limit expired). *)
Theorem set_profile_plain_name (e : env) (s : state) (name : str) :
  name <> [] ->
  forallb shlex_plain name = true ->
  accepted e name = true ->
  trace (snd (set_profile e name s))
  = trace s ++ [Print (lit "Set profile: " ++ name); Popen (set_argv name)]
  /\
  (forall rc stdout,
     run e (set_argv name) = Exited rc stdout ->
     fst (set_profile e name s) = inr (rc =? 0)%Z)
  /\
  (run e (set_argv name) = TimedOut ->
   fst (set_profile e name s) = inr false).
Proof.
  intros Hne Hplain Hacc. unfold set_profile, bind at 1, logger, emit, modify.
  cbn [fst snd]. unfold bind.
  rewrite parser_run, (set_command_argv name (conj Hne Hplain)).
  unfold set_argv. rewrite accepted_set_argv, Hacc.
  cbn [with_trace trace]. rewrite <- app_assoc. cbn [app].
  split; [|split].
  - destruct (run e _); reflexivity.
  - intros rc stdout ->. unfold ret. cbn [fst error_code]. f_equal.
    destruct (Z.eqb_spec rc 0) as [->|Hrc]; [reflexivity|].
    apply str_eqb_neq. intros E. now apply str_of_int_zero in E.
  - intros ->. reflexivity.
Qed.

Lemma set_profile_plain_name_witness :
  trace (snd (set_profile (world (Exited 0 [])) (lit "performance") (tray [] false [])))
  = [Print (lit "Set profile: performance");
     Popen [CONF.powerprofilesctl; lit "set"; lit "performance"]]
  /\ fst (set_profile (world (Exited 0 [])) (lit "performance") (tray [] false []))
     = inr true
  /\ fst (set_profile (world TimedOut) (lit "performance") (tray [] false []))
     = inr false.
Proof.
  assert (lit "performance" <> []) as Hne by discriminate.
  split; [|split].
  - exact (proj1 (set_profile_plain_name (world (Exited 0 [])) (tray [] false [])
                    (lit "performance") Hne eq_refl eq_refl)).
  - exact (proj1 (proj2 (set_profile_plain_name (world (Exited 0 []))
                    (tray [] false []) (lit "performance") Hne eq_refl eq_refl))
             0%Z [] eq_refl).
  - exact (proj2 (proj2 (set_profile_plain_name (world TimedOut) (tray [] false [])
                    (lit "performance") Hne eq_refl eq_refl)) eq_refl).
Defined.

(** ** The poll tick *)

Lemma update_icon_run (e : env) (s : state) :
  run e get_argv <> LaunchFailed ->
  update_icon e s =
  let p := reported_profile (run e get_argv) in
  let s1 := with_trace (trace s ++ [Popen get_argv]) s in
  if str_eqb p (current_profile s) then (inr tt, s1)
  else
    match dict_lookup (lit "balanced") (systray_icon_state s) with
    | None => (inl KeyError, with_current_profile p s1)
    | Some fallback =>
        (inr tt,
         with_trace
           (trace s ++ [Popen get_argv;
                        SetIcon (dict_get p fallback (systray_icon_state s))
                                (lit "Active Profile: " ++ p)])
           (with_current_profile p s1))
    end.
Proof.
  intros Hrun. unfold update_icon, bind at 1. rewrite get_active_profile_run.
  destruct (run e get_argv) eqn:Ho; try congruence;
    cbn [profile reported_profile]; cbv zeta;
    unfold bind, gets, emit, modify, ret, raise;
    cbn [current_profile with_trace with_current_profile systray_icon_state trace];
    (destruct (str_eqb _ (current_profile s)); cbn [negb]; [reflexivity|]);
    cbn [current_profile with_trace with_current_profile systray_icon_state trace];
    (destruct (dict_lookup (lit "balanced") (systray_icon_state s));
     [|reflexivity]);
    unfold with_trace, with_current_profile;
    cbn [systray_icon_state trace system_theme system_theme_force current_profile];
    rewrite <- ?app_assoc; reflexivity.
Qed.

(** C1, as stated, fails: a tick whose get command times out while
    "balanced" is stored overwrites the stored profile with the empty
    string and updates the icon and the tooltip. *)
Lemma failed_poll_counterexample :
  let e := world TimedOut in
  let s := tray (lit "dark") false (lit "balanced") in
  let s' := snd (on_timer e false false s) in
  failed (run e get_argv) /\
  current_profile s = lit "balanced" /\
  current_profile s' = [] /\
  trace s' = [Popen get_argv; SetIcon (Some ArtIcon) (lit "Active Profile: ")].
Proof. cbv zeta. repeat split; try reflexivity. Qed.

(** C1, amended. On a tick whose get command failed, [update_icon]
    still takes the profile from what the command printed (the first
    non-empty trimmed line; the empty string after a timeout).  When that
    profile equals the stored one, the stored profile is left as it is
    and no icon update is made; when it differs, it is stored and the
    icon and tooltip are updated.  [update_icon] never writes the theme
    or its force flag. *)
Theorem update_icon_after_failure (e : env) (s : state) :
  failed (run e get_argv) ->
  let p := reported_profile (run e get_argv) in
  let s' := snd (update_icon e s) in
  system_theme s' = system_theme s /\
  system_theme_force s' = system_theme_force s /\
  (run e get_argv = TimedOut -> p = []) /\
  (p = current_profile s ->
     current_profile s' = current_profile s /\
     trace s' = trace s ++ [Popen get_argv]) /\
  (p <> current_profile s ->
     current_profile s' = p /\
     forall fallback,
       dict_lookup (lit "balanced") (systray_icon_state s) = Some fallback ->
       trace s' =
       trace s ++ [Popen get_argv;
                   SetIcon (dict_get p fallback (systray_icon_state s))
                           (lit "Active Profile: " ++ p)]).
Proof.
  intros Hfail p s'. subst s'.
  assert (run e get_argv <> LaunchFailed) as Hrun
    by (intros E; rewrite E in Hfail; exact Hfail).
  rewrite (update_icon_run e s Hrun). cbv zeta. fold p.
  assert (run e get_argv = TimedOut -> p = []) as Htimeout
    by (intros E; subst p; now rewrite E).
  destruct (str_eqb p (current_profile s)) eqn:Heq.
  - apply str_eqb_eq in Heq.
    split; [reflexivity|]. split; [reflexivity|]. split; [exact Htimeout|].
    split; [intros _; split; reflexivity|intros Hne; contradiction].
  - apply str_eqb_neq in Heq.
    destruct (dict_lookup (lit "balanced") (systray_icon_state s)) eqn:Hd.
    + split; [reflexivity|]. split; [reflexivity|]. split; [exact Htimeout|].
      split; [intros Hp; contradiction|].
      intros _. split; [reflexivity|].
      intros fallback Hf. injection Hf as <-. reflexivity.
    + split; [reflexivity|]. split; [reflexivity|]. split; [exact Htimeout|].
      split; [intros Hp; contradiction|].
      intros _. split; [reflexivity|].
      intros fallback Hf. discriminate.
Qed.

Lemma update_icon_after_failure_witness :
  let e := world (Exited 1 (unlines [lit "performance"])) in
  let s := tray (lit "dark") false (lit "balanced") in
  failed (run e get_argv) /\
  current_profile (snd (update_icon e s)) = lit "performance" /\
  trace (snd (update_icon e s)) =
    [Popen get_argv; SetIcon (Some ArtIcon) (lit "Active Profile: performance")] /\
  current_profile
    (snd (update_icon (world TimedOut) (tray (lit "dark") false []))) = [] /\
  trace (snd (update_icon (world TimedOut) (tray (lit "dark") false [])))
    = [Popen get_argv].
Proof.
  intros e s.
  assert (failed (run e get_argv)) as Hf by (simpl; lia).
  assert (reported_profile (run e get_argv) <> current_profile s) as Hne
    by (vm_compute; discriminate).
  pose proof (update_icon_after_failure e s Hf) as H. cbv zeta in H.
  destruct H as [_ [_ [_ [_ H]]]]. destruct (H Hne) as [Hc Ht].
  pose proof (update_icon_after_failure (world TimedOut)
                (tray (lit "dark") false []) I) as H'. cbv zeta in H'.
  destruct H' as [_ [_ [_ [H' _]]]]. destruct (H' eq_refl) as [Hc' Ht'].
  split; [exact Hf|]. split; [exact Hc|]. split; [exact (Ht (Some ArtIcon) eq_refl)|].
  split; [exact Hc'|exact Ht'].
Defined.

(** *** What leaves the theme alone *)

Lemma keeps_theme_ret {A} (a : A) : keeps_theme (ret a).
Proof. intros s. split; reflexivity. Qed.

Lemma keeps_theme_raise {A} (x : exn) : keeps_theme (@raise A x).
Proof. intros s. split; reflexivity. Qed.

Lemma keeps_theme_gets {A} (f : state -> A) : keeps_theme (gets f).
Proof. intros s. split; reflexivity. Qed.

Lemma keeps_theme_modify (f : state -> state) :
  (forall s, system_theme (f s) = system_theme s /\
             system_theme_force (f s) = system_theme_force s) ->
  keeps_theme (modify f).
Proof. intros H s. apply H. Qed.

Lemma keeps_theme_emit (a : action) : keeps_theme (emit a).
Proof. apply keeps_theme_modify. intros s. split; reflexivity. Qed.

Lemma keeps_theme_bind {A B} (m : M A) (k : A -> M B) :
  keeps_theme m -> (forall a, keeps_theme (k a)) -> keeps_theme (bind m k).
Proof.
  intros Hm Hk s. unfold bind. specialize (Hm s).
  destruct (m s) as [[x|a] s1]; cbn [snd] in *; [exact Hm|].
  destruct (Hk a s1) as [H1 H2]. destruct Hm as [H3 H4].
  split; congruence.
Qed.

Create HintDb theme discriminated.
#[local] Hint Resolve keeps_theme_ret keeps_theme_raise keeps_theme_gets
  keeps_theme_emit : theme.

Lemma keeps_theme_parser (e : env) (cmd : str) : keeps_theme (parser e cmd).
Proof.
  intros s. rewrite parser_run.
  destruct (shlex_split cmd) as [argv|]; split; reflexivity.
Qed.

Lemma keeps_theme_get_active_profile (e : env) :
  keeps_theme (get_active_profile e).
Proof.
  unfold get_active_profile.
  apply keeps_theme_bind; [apply keeps_theme_parser|]. auto with theme.
Qed.

Lemma keeps_theme_update_icon (e : env) : keeps_theme (update_icon e).
Proof.
  unfold update_icon.
  apply keeps_theme_bind; [apply keeps_theme_get_active_profile|]. intros r.
  apply keeps_theme_bind; [auto with theme|]. intros current.
  destruct (negb _); [|auto with theme].
  apply keeps_theme_bind.
  { apply keeps_theme_modify. intros s. split; reflexivity. }
  intros _. apply keeps_theme_bind; [auto with theme|]. intros icons.
  destruct (dict_lookup _ icons); auto with theme.
Qed.

Lemma keeps_theme_set_icons (e : env) : keeps_theme (set_icons e).
Proof.
  unfold set_icons.
  apply keeps_theme_bind; [auto with theme|]. intros theme.
  apply keeps_theme_bind; [auto with theme|]. intros _.
  destruct (listdir e _); [|auto with theme].
  apply keeps_theme_bind.
  { apply keeps_theme_modify. intros s. split; reflexivity. }
  intros _. apply keeps_theme_modify. intros s. split; reflexivity.
Qed.

Lemma set_theme_style_forced (d : bool) (s : state) :
  system_theme_force s = true -> set_theme_style d s = (inr tt, s).
Proof.
  intros H. unfold set_theme_style, bind, gets. now rewrite H.
Qed.

Lemma set_theme_style_free (d : bool) (s : state) :
  system_theme_force s = false ->
  set_theme_style d s = (inr tt, with_system_theme (theme_name d) s).
Proof.
  intros H. unfold set_theme_style, bind, gets. now rewrite H.
Qed.

(** A tick that finds the OS theme different from the stored one does
    nothing about the theme: it is [update_icon] alone. *)
Lemma on_timer_theme_differs (e : env) (d1 d2 : bool) (s : state) :
  system_theme s <> theme_name d1 -> on_timer e d1 d2 s = update_icon e s.
Proof.
  intros H. apply str_eqb_neq in H.
  unfold on_timer, os_theme_style_changed, bind, gets, ret.
  now rewrite H.
Qed.

(** A tick that finds the OS theme equal to the stored one refreshes the
    theme and reloads the icons. *)
Lemma on_timer_theme_same (e : env) (d1 d2 : bool) (s : state) :
  system_theme s = theme_name d1 ->
  on_timer e d1 d2 s =
  bind (bind (set_theme_style d2) (fun _ => set_icons e))
       (fun _ => update_icon e) s.
Proof.
  intros H. apply str_eqb_eq in H.
  unfold on_timer, os_theme_style_changed, bind, gets, ret.
  now rewrite H.
Qed.

(** C2. The test of [os_theme_style_changed] is an equality, so the
    tick does the opposite of what its name says: with the theme not
    forced and "light" stored, a tick that finds the OS dark keeps
    "light" and reloads nothing, and a tick that finds the OS light
    reloads the icons. *)
Theorem on_timer_theme_check_inverted :
  let e := world (Exited 0 (unlines [lit "balanced"])) in
  let s := tray (lit "light") false (lit "balanced") in
  fst (os_theme_style_changed true s) = inr false /\
  system_theme (snd (on_timer e true true s)) = lit "light" /\
  trace (snd (on_timer e true true s)) = [Popen get_argv] /\
  fst (os_theme_style_changed false s) = inr true /\
  trace (snd (on_timer e false false s))
  = [Listdir (lit "/opt/pprofiler/light"); Popen get_argv].
Proof. cbv zeta. repeat split; reflexivity. Qed.

(** C8. With the force flag set, a tick never writes the stored theme,
    whatever the OS reports and whatever the commands do; the flag stays
    set.  With "dark" forced, a tick that finds the OS light leaves
    "dark". *)
Theorem on_timer_forced_theme (e : env) (d1 d2 : bool) (s : state) :
  system_theme_force s = true ->
  system_theme (snd (on_timer e d1 d2 s)) = system_theme s /\
  system_theme_force (snd (on_timer e d1 d2 s)) = true.
Proof.
  intros Hforce.
  enough (system_theme (snd (on_timer e d1 d2 s)) = system_theme s /\
          system_theme_force (snd (on_timer e d1 d2 s)) = system_theme_force s)
    as [H1 H2] by (split; congruence).
  destruct (str_eqb (system_theme s) (theme_name d1)) eqn:Heq.
  - apply str_eqb_eq in Heq. rewrite (on_timer_theme_same e d1 d2 s Heq).
    unfold bind. rewrite (set_theme_style_forced d2 s Hforce).
    pose proof (keeps_theme_set_icons e s) as Hicons.
    destruct (set_icons e s) as [[x|[]] s1]; cbn [snd] in *; [exact Hicons|].
    destruct (keeps_theme_update_icon e s1) as [H1 H2].
    destruct Hicons as [H3 H4]. split; congruence.
  - apply str_eqb_neq in Heq. rewrite (on_timer_theme_differs e d1 d2 s Heq).
    apply keeps_theme_update_icon.
Qed.

Lemma on_timer_forced_theme_witness :
  let s := tray (lit "dark") true (lit "balanced") in
  system_theme (snd (on_timer (world TimedOut) false false s)) = lit "dark" /\
  system_theme_force (snd (on_timer (world TimedOut) false false s)) = true.
Proof.
  intros s. exact (on_timer_forced_theme (world TimedOut) false false s eq_refl).
Defined.

(** * Further properties *)

(** ** [update_icon] *)

Lemma update_icon_stores (e : env) (s : state) :
  run e get_argv <> LaunchFailed ->
  current_profile (snd (update_icon e s)) = reported_profile (run e get_argv).
Proof.
  intros Hrun. rewrite (update_icon_run e s Hrun). cbv zeta.
  destruct (str_eqb _ (current_profile s)) eqn:Heq.
  - apply str_eqb_eq in Heq. cbn [snd with_trace current_profile]. congruence.
  - destruct (dict_lookup _ (systray_icon_state s)); reflexivity.
Qed.

Lemma update_icon_icons (e : env) (s : state) :
  systray_icon_state (snd (update_icon e s)) = systray_icon_state s.
Proof.
  destruct (run e get_argv) eqn:Ho.
  3:{ unfold update_icon, bind at 1. rewrite get_active_profile_run, Ho.
      reflexivity. }
  all: rewrite update_icon_run by congruence; cbv zeta;
    (destruct (str_eqb _ (current_profile s)); [reflexivity|]);
    destruct (dict_lookup _ (systray_icon_state s)); reflexivity.
Qed.

(** X1. Once [update_icon] has run, running it again while the command
    answers the same way stores nothing and updates no icon: the only
    thing it does is start the get command. *)
Theorem update_icon_settles (e : env) (s : state) :
  run e get_argv <> LaunchFailed ->
  update_icon e (snd (update_icon e s)) =
  (inr tt,
   with_trace (trace (snd (update_icon e s)) ++ [Popen get_argv])
              (snd (update_icon e s))).
Proof.
  intros Hrun.
  rewrite (update_icon_run e (snd (update_icon e s)) Hrun). cbv zeta.
  rewrite (update_icon_stores e s Hrun), str_eqb_refl. reflexivity.
Qed.

Lemma update_icon_settles_witness :
  let e := world (Exited 0 (unlines [lit "performance"])) in
  let s1 := snd (update_icon e (tray (lit "dark") false (lit "balanced"))) in
  trace s1 = [Popen get_argv;
              SetIcon (Some ArtIcon) (lit "Active Profile: performance")] /\
  trace (snd (update_icon e s1)) = trace s1 ++ [Popen get_argv].
Proof.
  intros e s1. split; [reflexivity|].
  assert (run e get_argv <> LaunchFailed) as Hrun by discriminate.
  pose proof (update_icon_settles e (tray (lit "dark") false (lit "balanced")) Hrun)
    as H.
  fold s1 in H. rewrite H. reflexivity.
Defined.

(** X2. Whenever the get command could be started, [update_icon] leaves
    in [current_profile] the profile the command reported (the empty
    string when it reported none), and it never touches the icon
    table. *)
Theorem update_icon_postcondition (e : env) (s : state) :
  run e get_argv <> LaunchFailed ->
  current_profile (snd (update_icon e s)) = reported_profile (run e get_argv) /\
  systray_icon_state (snd (update_icon e s)) = systray_icon_state s.
Proof.
  intros Hrun. split; [now apply update_icon_stores|apply update_icon_icons].
Qed.

Lemma update_icon_postcondition_witness :
  current_profile
    (snd (update_icon (world (Exited 0 (unlines [lit "power-saver"])))
            (tray (lit "dark") false (lit "balanced")))) = lit "power-saver".
Proof.
  assert (run (world (Exited 0 (unlines [lit "power-saver"]))) get_argv
          <> LaunchFailed) as Hrun by discriminate.
  exact (proj1 (update_icon_postcondition _
                  (tray (lit "dark") false (lit "balanced")) Hrun)).
Defined.

(** X3. When the reported profile differs from the stored one,
    [update_icon] shows the icon filed under that profile in the icon
    table, and the icon of "balanced" when the table has no such key;
    the tooltip is "Active Profile: " followed by the profile. *)
Theorem update_icon_icon_choice (e : env) (s : state) (fallback : option Icon) :
  run e get_argv <> LaunchFailed ->
  reported_profile (run e get_argv) <> current_profile s ->
  dict_lookup (lit "balanced") (systray_icon_state s) = Some fallback ->
  let p := reported_profile (run e get_argv) in
  (forall own, dict_lookup p (systray_icon_state s) = Some own ->
     trace (snd (update_icon e s)) =
     trace s ++ [Popen get_argv; SetIcon own (lit "Active Profile: " ++ p)]) /\
  (dict_lookup p (systray_icon_state s) = None ->
     trace (snd (update_icon e s)) =
     trace s ++ [Popen get_argv; SetIcon fallback (lit "Active Profile: " ++ p)]).
Proof.
  intros Hrun Hne Hfb p. rewrite (update_icon_run e s Hrun). cbv zeta. fold p.
  apply str_eqb_neq in Hne. fold p in Hne. rewrite Hne, Hfb.
  cbn [snd with_trace trace]. unfold dict_get.
  split; [intros own Ho|intros Ho]; now rewrite Ho.
Qed.

Lemma update_icon_icon_choice_witness :
  let e := world (Exited 0 (unlines [lit "turbo"])) in
  let s := with_systray_icon_state
             [(lit "performance", Some (Loaded (lit "p.png")));
              (lit "balanced", Some (Loaded (lit "b.png")))]
             (tray (lit "dark") false (lit "balanced")) in
  trace (snd (update_icon e s)) =
  [Popen get_argv; SetIcon (Some (Loaded (lit "b.png"))) (lit "Active Profile: turbo")].
Proof.
  intros e s.
  assert (run e get_argv <> LaunchFailed) as Hrun by discriminate.
  assert (reported_profile (run e get_argv) <> current_profile s) as Hne
    by (vm_compute; discriminate).
  exact (proj2 (update_icon_icon_choice e s (Some (Loaded (lit "b.png")))
                  Hrun Hne eq_refl) eq_refl).
Defined.

(** X4. When the command cannot be started, [update_icon] raises
    [OSError]; the stored profile stays and no icon is updated. *)
Theorem update_icon_launch_failure (e : env) (s : state) :
  run e get_argv = LaunchFailed ->
  update_icon e s = (inl OSError, with_trace (trace s ++ [Popen get_argv]) s).
Proof.
  intros Hrun. unfold update_icon, bind at 1. rewrite get_active_profile_run.
  now rewrite Hrun.
Qed.

Lemma update_icon_launch_failure_witness :
  update_icon (world LaunchFailed) (tray (lit "dark") false (lit "balanced"))
  = (inl OSError,
     with_trace [Popen get_argv] (tray (lit "dark") false (lit "balanced"))).
Proof.
  exact (update_icon_launch_failure (world LaunchFailed)
           (tray (lit "dark") false (lit "balanced")) eq_refl).
Defined.

(** ** [set_icons] *)

Lemma dict_lookup_set_same {V} (k k' : str) (v : V) (d : dict V) :
  k = k' -> dict_lookup k d <> None -> dict_lookup k (dict_set k' v d) = Some v.
Proof.
  intros <-. induction d as [|[k1 v1] d IH]; cbn [dict_lookup dict_set];
    [congruence|].
  destruct (str_eqb k k1) eqn:E; cbn [dict_lookup]; rewrite E; auto.
Qed.

Lemma dict_lookup_set_other {V} (k k' : str) (v : V) (d : dict V) :
  k <> k' -> dict_lookup k' d <> None ->
  dict_lookup k (dict_set k' v d) = dict_lookup k d.
Proof.
  intros Hne. induction d as [|[k1 v1] d IH]; cbn [dict_lookup dict_set];
    [congruence|].
  destruct (str_eqb k' k1) eqn:E'; cbn [dict_lookup].
  - apply str_eqb_eq in E'. subst k1. intros _.
    apply str_eqb_neq in Hne. now rewrite Hne.
  - intros H. destruct (str_eqb k k1); [reflexivity|auto].
Qed.

Lemma dict_set_keys {V} (k : str) (v : V) (d : dict V) :
  dict_lookup k d <> None -> map fst (dict_set k v d) = map fst d.
Proof.
  induction d as [|[k1 v1] d IH]; cbn [dict_lookup dict_set]; [congruence|].
  destruct (str_eqb k k1); cbn [map fst]; [reflexivity|].
  intros H. now rewrite IH.
Qed.

Lemma dict_mem_lookup {V} (k : str) (d : dict V) :
  dict_mem k d = true <-> dict_lookup k d <> None.
Proof.
  unfold dict_mem. destruct (dict_lookup k d); split; congruence.
Qed.

Lemma dict_lookup_keys {V W} (k : str) (d : dict V) (d' : dict W) :
  map fst d = map fst d' ->
  dict_lookup k d = None -> dict_lookup k d' = None.
Proof.
  revert d'. induction d as [|[k1 v1] d IH]; intros [|[k2 v2] d'];
    cbn [map fst dict_lookup]; try discriminate; auto.
  intros E. injection E as -> E. destruct (str_eqb k k2); [discriminate|auto].
Qed.

Lemma icon_step_keys (dir : str) (icons : dict (option Icon)) (f : str) :
  map fst (icon_step dir icons f) = map fst icons.
Proof.
  unfold icon_step. destruct (dict_mem _ icons) eqn:E; [|reflexivity].
  apply dict_set_keys. now apply dict_mem_lookup.
Qed.

Lemma fold_icon_step_keys (dir : str) (files : list str)
    (icons : dict (option Icon)) :
  map fst (fold_left (icon_step dir) files icons) = map fst icons.
Proof.
  revert icons. induction files as [|f fs IH]; intros icons; [reflexivity|].
  cbn [fold_left]. rewrite IH. apply icon_step_keys.
Qed.

Lemma fill_default_keys (icons : dict (option Icon)) :
  map fst (map fill_default icons) = map fst icons.
Proof.
  induction icons as [|[k [i|]] d IH]; cbn [map fst]; [reflexivity| |];
    unfold fill_default at 1; cbn [snd fst]; now rewrite IH.
Qed.

Lemma fill_default_loaded (icons : dict (option Icon)) :
  icons_loaded (map fill_default icons).
Proof.
  unfold icons_loaded.
  induction icons as [|[k [i|]] d IH]; cbn [map]; constructor;
    try exact IH; discriminate.
Qed.

Lemma fill_default_lookup (k : str) (icons : dict (option Icon)) :
  dict_lookup k (map fill_default icons) =
  match dict_lookup k icons with
  | None => None
  | Some old => Some (match old with None => Some ArtIcon | Some i => Some i end)
  end.
Proof.
  induction icons as [|[k1 v1] d IH]; [reflexivity|].
  cbn [map]. unfold fill_default at 1. cbn [snd fst].
  destruct v1; cbn [dict_lookup]; destruct (str_eqb k k1); auto.
Qed.

Lemma fold_icon_step_lookup (dir k : str) (files : list str)
    (icons : dict (option Icon)) :
  dict_lookup k (fold_left (icon_step dir) files icons) =
  match dict_lookup k icons with
  | None => None
  | Some old =>
      Some (match rev (filter (fun x => str_eqb (split_head DOT x) k) files) with
            | f :: _ => Some (Loaded (path_join dir f))
            | [] => old
            end)
  end.
Proof.
  revert icons. induction files as [|f fs IH]; intros icons.
  - cbn [fold_left filter rev]. now destruct (dict_lookup k icons).
  - cbn [fold_left filter]. rewrite IH. unfold icon_step. cbv zeta.
    destruct (str_eqb (split_head DOT f) k) eqn:Ek.
    + apply str_eqb_eq in Ek. rewrite Ek. unfold dict_mem.
      destruct (dict_lookup k icons) as [old|] eqn:El.
      * rewrite dict_lookup_set_same by congruence.
        cbn [rev]. destruct (rev (filter _ fs)); reflexivity.
      * now rewrite El.
    + apply str_eqb_neq in Ek.
      destruct (dict_mem (split_head DOT f) icons) eqn:Em; [|reflexivity].
      rewrite dict_lookup_set_other;
        [reflexivity|congruence|now apply dict_mem_lookup].
Qed.

Lemma images_for_filter (e : env) (k : str) (names : list str) :
  filter (fun x => str_eqb (split_head DOT x) k)
    (filter (fun x => endswith (lit ".png") (lower e x)) names)
  = images_for e k names.
Proof.
  unfold images_for. induction names as [|x xs IH]; [reflexivity|].
  cbn [filter]. destruct (endswith _ (lower e x)); cbn [filter andb];
    [destruct (str_eqb _ k); now rewrite IH|exact IH].
Qed.

Lemma set_icons_run (e : env) (s : state) :
  let dir := path_join (APP_PATH e) (system_theme s) in
  set_icons e s =
  match listdir e dir with
  | None => (inl OSError, with_trace (trace s ++ [Listdir dir]) s)
  | Some names =>
      (inr tt,
       with_systray_icon_state
         (map fill_default
            (fold_left (icon_step dir)
               (filter (fun x => endswith (lit ".png") (lower e x)) names)
               (systray_icon_state s)))
         (with_trace (trace s ++ [Listdir dir]) s))
  end.
Proof.
  cbv zeta. unfold set_icons, bind, gets, emit, modify, raise. cbn [fst snd].
  cbn [with_trace system_theme].
  destruct (listdir e (path_join (APP_PATH e) (system_theme s))); reflexivity.
Qed.

(** X5. [set_icons] never adds or removes a key of the icon table.
    When it returns, every key has an icon; when the theme directory
    cannot be listed it raises [OSError] and the table is as before. *)
Theorem set_icons_table (e : env) (s : state) :
  map fst (systray_icon_state (snd (set_icons e s)))
  = map fst (systray_icon_state s) /\
  (fst (set_icons e s) = inr tt ->
   icons_loaded (systray_icon_state (snd (set_icons e s)))) /\
  (fst (set_icons e s) <> inr tt ->
   fst (set_icons e s) = inl OSError /\
   systray_icon_state (snd (set_icons e s)) = systray_icon_state s).
Proof.
  rewrite set_icons_run. cbv zeta.
  destruct (listdir e _) as [names|]; cbn [fst snd].
  - cbn [with_systray_icon_state systray_icon_state].
    rewrite fill_default_keys, fold_icon_step_keys.
    split; [reflexivity|]. split; [intros _; apply fill_default_loaded|].
    intros H. now contradiction H.
  - split; [reflexivity|]. split; [discriminate|]. intros _. split; reflexivity.
Qed.

Lemma set_icons_table_witness :
  icons_loaded
    (systray_icon_state
       (snd (set_icons (world_of TimedOut TimedOut TimedOut)
               (with_system_theme (lit "dark") CONF_initial)))).
Proof.
  exact (proj1 (proj2 (set_icons_table (world_of TimedOut TimedOut TimedOut)
                         (with_system_theme (lit "dark") CONF_initial)))
           eq_refl).
Defined.

(** X6. After [set_icons] has read the theme directory, the icon of a
    key is the image of the last listed file whose lower-cased name ends
    in ".png" and whose name up to its first dot is the key; when there
    is no such file it is the icon the key had, or the default icon when
    it had none.  A name that is not a key gets no entry. *)
Theorem set_icons_lookup (e : env) (s : state) (names : list str) (k : str) :
  listdir e (path_join (APP_PATH e) (system_theme s)) = Some names ->
  dict_lookup k (systray_icon_state (snd (set_icons e s))) =
  match dict_lookup k (systray_icon_state s) with
  | None => None
  | Some old =>
      Some (match rev (images_for e k names) with
            | f :: _ =>
                Some (Loaded (path_join (path_join (APP_PATH e) (system_theme s)) f))
            | [] => match old with None => Some ArtIcon | Some i => Some i end
            end)
  end.
Proof.
  intros Hdir. rewrite set_icons_run. cbv zeta. rewrite Hdir.
  cbn [snd with_systray_icon_state systray_icon_state].
  rewrite fill_default_lookup, fold_icon_step_lookup.
  rewrite images_for_filter.
  destruct (dict_lookup k (systray_icon_state s)) as [old|]; [|reflexivity].
  destruct (rev (images_for e k names)); reflexivity.
Qed.

Lemma set_icons_lookup_witness :
  let e := world_of TimedOut TimedOut TimedOut in
  let s := with_system_theme (lit "dark") CONF_initial in
  dict_lookup (lit "balanced") (systray_icon_state (snd (set_icons e s)))
  = Some (Some (Loaded (lit "/opt/pprofiler/dark/balanced.png"))) /\
  dict_lookup (lit "performance") (systray_icon_state (snd (set_icons e s)))
  = Some (Some ArtIcon) /\
  dict_lookup (lit "README") (systray_icon_state (snd (set_icons e s))) = None.
Proof.
  intros e s. split; [|split].
  - exact (set_icons_lookup e s _ (lit "balanced") eq_refl).
  - exact (set_icons_lookup e s _ (lit "performance") eq_refl).
  - exact (set_icons_lookup e s _ (lit "README") eq_refl).
Defined.

(** ** The poll loop *)

Lemma on_timer_run (e : env) (d1 d2 : bool) (s : state) :
  on_timer e d1 d2 s =
  if str_eqb (system_theme s) (theme_name d1) then
    match set_icons e (if system_theme_force s then s
                       else with_system_theme (theme_name d2) s) with
    | (inl x, s2) => (inl x, s2)
    | (inr _, s2) => update_icon e s2
    end
  else update_icon e s.
Proof.
  unfold on_timer, os_theme_style_changed, set_theme_style.
  unfold bind, gets, ret, modify.
  destruct (str_eqb (system_theme s) (theme_name d1)); [|reflexivity].
  destruct (system_theme_force s); cbn [negb];
    destruct (set_icons e _) as [[x|[]] s2]; reflexivity.
Qed.

Lemma set_icons_theme (e : env) (s : state) :
  system_theme (snd (set_icons e s)) = system_theme s /\
  system_theme_force (snd (set_icons e s)) = system_theme_force s.
Proof. apply keeps_theme_set_icons. Qed.

Lemma update_icon_theme (e : env) (s : state) :
  system_theme (snd (update_icon e s)) = system_theme s /\
  system_theme_force (snd (update_icon e s)) = system_theme_force s.
Proof. apply keeps_theme_update_icon. Qed.

Lemma on_timer_theme_cases (e : env) (d1 d2 : bool) (s : state) :
  system_theme_force (snd (on_timer e d1 d2 s)) = system_theme_force s /\
  (system_theme (snd (on_timer e d1 d2 s)) = system_theme s \/
   system_theme_force s = false /\ system_theme s = theme_name d1 /\
   system_theme (snd (on_timer e d1 d2 s)) = theme_name d2).
Proof.
  rewrite on_timer_run.
  destruct (str_eqb (system_theme s) (theme_name d1)) eqn:Heq.
  - apply str_eqb_eq in Heq.
    destruct (system_theme_force s) eqn:Hf.
    + destruct (set_icons_theme e s) as [H1 H2].
      destruct (set_icons e s) as [[x|u] s2]; cbn [snd] in *.
      * split; [congruence|left; congruence].
      * destruct (update_icon_theme e s2) as [H3 H4].
        split; [congruence|left; congruence].
    + destruct (set_icons_theme e (with_system_theme (theme_name d2) s))
        as [H1 H2]. cbn [with_system_theme system_theme system_theme_force] in *.
      destruct (set_icons e _) as [[x|u] s2]; cbn [snd] in *.
      * split; [congruence|right; repeat split; congruence].
      * destruct (update_icon_theme e s2) as [H3 H4].
        split; [congruence|right; repeat split; congruence].
  - destruct (update_icon_theme e s) as [H1 H2]. split; [exact H2|now left].
Qed.

(** X7. Once the theme is forced, no sequence of timer events changes
    the stored theme or clears the flag, whatever the OS and the commands
    answer at each event. *)
Theorem poll_forced_theme (ticks : list tick) (s : state) :
  system_theme_force s = true ->
  system_theme (poll ticks s) = system_theme s /\
  system_theme_force (poll ticks s) = true.
Proof.
  unfold poll. revert s. induction ticks as [|t ts IH]; intros s Hf.
  - split; [reflexivity|exact Hf].
  - cbn [fold_left].
    destruct (on_timer_theme_cases (tick_env t) (tick_dark_check t)
                (tick_dark_refresh t) s) as [H1 [H2|[H2 _]]]; [|congruence].
    rewrite Hf in H1. destruct (IH _ H1) as [H3 H4].
    split; [congruence|exact H4].
Qed.

Lemma poll_forced_theme_witness :
  let ticks := [ {| tick_env := world TimedOut;
                    tick_dark_check := false; tick_dark_refresh := false |};
                 {| tick_env := world (Exited 0 (unlines [lit "balanced"]));
                    tick_dark_check := true; tick_dark_refresh := false |} ] in
  system_theme (poll ticks (tray (lit "dark") true [])) = lit "dark".
Proof.
  intros ticks.
  exact (proj1 (poll_forced_theme ticks (tray (lit "dark") true []) eq_refl)).
Defined.

(** X8. As the code stands, a timer event whose two appearance queries
    agree never changes the stored theme, forced or not: when the OS
    theme differs from the stored one nothing is written, and when it is
    the same the same value is written back.  So no sequence of such
    events changes the stored theme. *)
Theorem poll_theme_frozen (ticks : list tick) (s : state) :
  Forall (fun t => tick_dark_check t = tick_dark_refresh t) ticks ->
  system_theme (poll ticks s) = system_theme s.
Proof.
  unfold poll. intros H. revert s.
  induction H as [|t ts Ht _ IH]; intros s; [reflexivity|].
  cbn [fold_left]. rewrite IH.
  destruct (on_timer_theme_cases (tick_env t) (tick_dark_check t)
              (tick_dark_refresh t) s) as [_ [H2|[_ [H3 H4]]]]; congruence.
Qed.

Lemma poll_theme_frozen_witness :
  let ticks := [ {| tick_env := world (Exited 0 (unlines [lit "balanced"]));
                    tick_dark_check := true; tick_dark_refresh := true |};
                 {| tick_env := world (Exited 0 (unlines [lit "balanced"]));
                    tick_dark_check := false; tick_dark_refresh := false |} ] in
  system_theme (poll ticks (tray (lit "light") false [])) = lit "light".
Proof.
  intros ticks.
  apply (poll_theme_frozen ticks (tray (lit "light") false [])).
  repeat constructor.
Defined.

(** *** The icon table and the icons shown *)

Lemma icons_loaded_lookup (icons : dict (option Icon)) (k : str)
    (v : option Icon) :
  icons_loaded icons -> dict_lookup k icons = Some v -> v <> None.
Proof.
  unfold icons_loaded. induction 1 as [|[k1 v1] d Hv _ IH];
    cbn [dict_lookup]; [discriminate|].
  destruct (str_eqb k k1); [|exact IH].
  intros E. injection E as <-. exact Hv.
Qed.

Lemma dict_get_loaded (icons : dict (option Icon)) (k : str)
    (fallback : option Icon) :
  icons_loaded icons -> fallback <> None -> dict_get k fallback icons <> None.
Proof.
  intros Hl Hf. unfold dict_get.
  destruct (dict_lookup k icons) as [own|] eqn:Ho; [|exact Hf].
  exact (icons_loaded_lookup _ _ _ Hl Ho).
Qed.

Lemma has_icon_popen (tr : list action) (argv : list str) :
  Forall has_icon tr -> Forall has_icon (tr ++ [Popen argv]).
Proof.
  intros H. apply Forall_app. split; [exact H|]. repeat constructor.
Qed.

Lemma has_icon_seticon (tr : list action) (argv : list str)
    (icon : option Icon) (tip : str) :
  Forall has_icon tr -> icon <> None ->
  Forall has_icon (tr ++ [Popen argv; SetIcon icon tip]).
Proof.
  intros H Hi. apply Forall_app. split; [exact H|].
  constructor; [exact I|]. constructor; [|constructor].
  destruct icon; [exact I|congruence].
Qed.

Lemma update_icon_has_icon (e : env) (s : state) :
  icons_loaded (systray_icon_state s) ->
  Forall has_icon (trace s) ->
  Forall has_icon (trace (snd (update_icon e s))).
Proof.
  intros Hl Ht.
  destruct (run e get_argv) eqn:Ho.
  3:{ unfold update_icon, bind at 1. rewrite get_active_profile_run, Ho.
      cbn [snd with_trace trace]. now apply has_icon_popen. }
  all: rewrite update_icon_run by congruence; cbv zeta;
    (destruct (str_eqb _ (current_profile s));
     [cbn [snd with_trace trace]; now apply has_icon_popen|]);
    destruct (dict_lookup (lit "balanced") (systray_icon_state s))
      as [fallback|] eqn:Hfb;
    cbn [snd with_trace with_current_profile trace].
  - apply has_icon_seticon; [exact Ht|].
    apply dict_get_loaded; [exact Hl|exact (icons_loaded_lookup _ _ _ Hl Hfb)].
  - now apply has_icon_popen.
  - apply has_icon_seticon; [exact Ht|].
    apply dict_get_loaded; [exact Hl|exact (icons_loaded_lookup _ _ _ Hl Hfb)].
  - now apply has_icon_popen.
Qed.

Lemma set_icons_has_icon (e : env) (s : state) :
  Forall has_icon (trace s) -> Forall has_icon (trace (snd (set_icons e s))).
Proof.
  intros Ht. rewrite set_icons_run. cbv zeta.
  destruct (listdir e _); cbn [snd with_trace with_systray_icon_state trace];
    apply Forall_app; (split; [exact Ht|]); repeat constructor.
Qed.

Lemma set_icons_loaded (e : env) (s : state) :
  icons_loaded (systray_icon_state s) ->
  icons_loaded (systray_icon_state (snd (set_icons e s))).
Proof.
  intros Hl. rewrite set_icons_run. cbv zeta.
  destruct (listdir e _); cbn [snd with_trace with_systray_icon_state systray_icon_state];
    [apply fill_default_loaded|exact Hl].
Qed.

Lemma set_icons_keys (e : env) (s : state) :
  map fst (systray_icon_state (snd (set_icons e s)))
  = map fst (systray_icon_state s).
Proof.
  rewrite set_icons_run. cbv zeta.
  destruct (listdir e _); cbn [snd with_trace with_systray_icon_state systray_icon_state];
    [|reflexivity].
  now rewrite fill_default_keys, fold_icon_step_keys.
Qed.

Lemma on_timer_icons (e : env) (d1 d2 : bool) (s : state) :
  icons_loaded (systray_icon_state s) ->
  Forall has_icon (trace s) ->
  map fst (systray_icon_state (snd (on_timer e d1 d2 s)))
  = map fst (systray_icon_state s) /\
  icons_loaded (systray_icon_state (snd (on_timer e d1 d2 s))) /\
  Forall has_icon (trace (snd (on_timer e d1 d2 s))).
Proof.
  intros Hl Ht. rewrite on_timer_run.
  destruct (str_eqb (system_theme s) (theme_name d1)).
  - set (s1 := if system_theme_force s then s
               else with_system_theme (theme_name d2) s).
    assert (systray_icon_state s1 = systray_icon_state s /\ trace s1 = trace s)
      as [Hi Htr] by (subst s1; destruct (system_theme_force s); split; reflexivity).
    pose proof (set_icons_keys e s1) as Hk.
    pose proof (set_icons_loaded e s1) as Hl1.
    pose proof (set_icons_has_icon e s1) as Ht1.
    rewrite Hi in Hk, Hl1. rewrite Htr in Ht1.
    specialize (Hl1 Hl). specialize (Ht1 Ht).
    destruct (set_icons e s1) as [[x|u] s2]; cbn [snd] in *.
    + auto.
    + rewrite update_icon_icons. split; [exact Hk|]. split; [exact Hl1|].
      now apply update_icon_has_icon.
  - rewrite update_icon_icons. split; [reflexivity|]. split; [exact Hl|].
    now apply update_icon_has_icon.
Qed.

(** X9. Once every key of the icon table has an icon, it stays so over
    any sequence of timer events, the keys of the table never change, and
    every [SetIcon] call made along the way carries an icon. *)
Theorem poll_icons (ticks : list tick) (s : state) :
  icons_loaded (systray_icon_state s) ->
  Forall has_icon (trace s) ->
  map fst (systray_icon_state (poll ticks s)) = map fst (systray_icon_state s) /\
  icons_loaded (systray_icon_state (poll ticks s)) /\
  Forall has_icon (trace (poll ticks s)).
Proof.
  unfold poll. revert s. induction ticks as [|t ts IH]; intros s Hl Ht.
  - auto.
  - cbn [fold_left].
    destruct (on_timer_icons (tick_env t) (tick_dark_check t)
                (tick_dark_refresh t) s Hl Ht) as [Hk [Hl1 Ht1]].
    destruct (IH _ Hl1 Ht1) as [Hk2 [Hl2 Ht2]].
    split; [congruence|]. split; assumption.
Qed.

Lemma poll_icons_witness :
  let ticks := [ {| tick_env := world (Exited 0 (unlines [lit "turbo"]));
                    tick_dark_check := true; tick_dark_refresh := true |};
                 {| tick_env := world TimedOut;
                    tick_dark_check := false; tick_dark_refresh := false |} ] in
  Forall has_icon (trace (poll ticks (tray (lit "dark") false []))).
Proof.
  intros ticks.
  refine (proj2 (proj2 (poll_icons ticks (tray (lit "dark") false []) _ _))).
  - repeat constructor; discriminate.
  - constructor.
Defined.

(** ** Start-up *)

Lemma OnInit_run (e : env) (d : bool) (s : state) :
  OnInit e d s =
  match set_icons e (if system_theme_force s then s
                     else with_system_theme (theme_name d) s) with
  | (inl x, s2) => (inl x, s2)
  | (inr _, s2) =>
      match dict_lookup (lit "balanced") (systray_icon_state s2) with
      | None => (inl KeyError, s2)
      | Some _ =>
          match update_icon e (with_current_profile [] s2) with
          | (inl x, s3) => (inl x, s3)
          | (inr _, s3) => (inr true, s3)
          end
      end
  end.
Proof.
  unfold OnInit, SystrayIcon_init, set_theme_style.
  unfold bind, gets, ret, modify, raise.
  destruct (system_theme_force s); cbn [negb];
    destruct (set_icons e _) as [[x|[]] s2]; try reflexivity;
    destruct (dict_lookup _ (systray_icon_state s2)); try reflexivity;
    destruct (update_icon e _) as [[x|[]] s3]; reflexivity.
Qed.

Lemma set_icons_keeps_key (e : env) (s : state) (k : str) :
  dict_lookup k (systray_icon_state s) <> None ->
  dict_lookup k (systray_icon_state (snd (set_icons e s))) <> None.
Proof.
  intros H E. apply H.
  apply (dict_lookup_keys k _ _ (set_icons_keys e s) E).
Qed.

(** X10. Start-up, when the theme directory can be listed and the get
    command can be started: [OnInit] returns true, every key of the icon
    table has an icon, and the stored profile is the one the command
    reported.  The tray icon is set exactly when that profile is not
    empty; after a timeout or an empty answer no [SetIcon] call is made
    at all. *)
Theorem OnInit_startup (e : env) (d : bool) (s : state) (names : list str) :
  let theme := if system_theme_force s then system_theme s else theme_name d in
  let p := reported_profile (run e get_argv) in
  let s' := snd (OnInit e d s) in
  dict_lookup (lit "balanced") (systray_icon_state s) <> None ->
  listdir e (path_join (APP_PATH e) theme) = Some names ->
  run e get_argv <> LaunchFailed ->
  fst (OnInit e d s) = inr true /\
  system_theme s' = theme /\
  icons_loaded (systray_icon_state s') /\
  current_profile s' = p /\
  (p = [] ->
   trace s' = trace s ++ [Listdir (path_join (APP_PATH e) theme); Popen get_argv]) /\
  (p <> [] ->
   exists icon,
     trace s' = trace s ++ [Listdir (path_join (APP_PATH e) theme);
                            Popen get_argv;
                            SetIcon (Some icon) (lit "Active Profile: " ++ p)]).
Proof.
  intros theme p s' Hbal Hdir Hrun. subst s'. rewrite OnInit_run.
  set (s1 := if system_theme_force s then s
             else with_system_theme (theme_name d) s).
  assert (system_theme s1 = theme /\ systray_icon_state s1 = systray_icon_state s
          /\ trace s1 = trace s) as [Hth [Hic Htr]]
    by (subst s1 theme; destruct (system_theme_force s); repeat split; reflexivity).
  pose proof (set_icons_keeps_key e s1 (lit "balanced")) as Hkey.
  rewrite Hic in Hkey. specialize (Hkey Hbal).
  pose proof (set_icons_theme e s1) as [Hth2 _].
  revert Hkey Hth2. rewrite set_icons_run. cbv zeta. rewrite Hth, Hdir.
  cbn [snd fst]. set (s2 := with_systray_icon_state _ _). intros Hkey Hth2.
  assert (icons_loaded (systray_icon_state s2)) as Hl
    by (subst s2; apply fill_default_loaded).
  assert (trace s2 = trace s ++ [Listdir (path_join (APP_PATH e) theme)]) as Htr2
    by (subst s2; cbn [with_systray_icon_state with_trace trace]; now rewrite Htr).
  destruct (dict_lookup (lit "balanced") (systray_icon_state s2))
    as [fallback|] eqn:Hfb; [|congruence].
  rewrite (update_icon_run e (with_current_profile [] s2) Hrun). cbv zeta.
  fold p. cbn [with_current_profile current_profile systray_icon_state trace].
  destruct (str_eqb p []) eqn:Hp.
  - apply str_eqb_eq in Hp. cbn [fst snd with_trace trace current_profile
                                  system_theme systray_icon_state].
    split; [reflexivity|]. split; [exact Hth2|]. split; [exact Hl|].
    split; [now rewrite Hp|]. split.
    + intros _. rewrite Htr2, <- app_assoc. reflexivity.
    + intros Hne. contradiction.
  - apply str_eqb_neq in Hp. rewrite Hfb.
    cbn [fst snd with_trace with_current_profile trace current_profile
         system_theme systray_icon_state].
    split; [reflexivity|]. split; [exact Hth2|]. split; [exact Hl|].
    split; [reflexivity|]. split; [intros Hq; contradiction|].
    intros _.
    pose proof (dict_get_loaded _ p fallback Hl
                  (icons_loaded_lookup _ _ _ Hl Hfb)) as Hicon.
    destruct (dict_get p fallback (systray_icon_state s2)) as [icon|];
      [|congruence].
    exists icon. rewrite Htr2, <- app_assoc. reflexivity.
Qed.

Lemma OnInit_startup_witness :
  (let s' := snd (OnInit (world_of TimedOut TimedOut TimedOut) true CONF_initial) in
   current_profile s' = [] /\
   trace s' = [Listdir (lit "/opt/pprofiler/dark"); Popen get_argv]) /\
  (let s' := snd (OnInit (world (Exited 0 (unlines [lit "balanced"]))) false
                    CONF_initial) in
   current_profile s' = lit "balanced" /\
   exists icon,
     trace s' = [Listdir (lit "/opt/pprofiler/light"); Popen get_argv;
                 SetIcon (Some icon) (lit "Active Profile: balanced")]).
Proof.
  split.
  - assert (dict_lookup (lit "balanced") (systray_icon_state CONF_initial) <> None)
      as Hb by discriminate.
    assert (run (world_of TimedOut TimedOut TimedOut) get_argv <> LaunchFailed)
      as Hr by discriminate.
    pose proof (OnInit_startup (world_of TimedOut TimedOut TimedOut) true
                  CONF_initial _ Hb eq_refl Hr) as H.
    cbv zeta in H. destruct H as [_ [_ [_ [Hc [Ht _]]]]].
    split; [exact Hc|exact (Ht eq_refl)].
  - assert (dict_lookup (lit "balanced") (systray_icon_state CONF_initial) <> None)
      as Hb by discriminate.
    assert (run (world (Exited 0 (unlines [lit "balanced"]))) get_argv
            <> LaunchFailed) as Hr by discriminate.
    pose proof (OnInit_startup (world (Exited 0 (unlines [lit "balanced"]))) false
                  CONF_initial _ Hb eq_refl Hr) as H.
    cbv zeta in H. destruct H as [_ [_ [_ [Hc [_ Ht]]]]].
    split; [exact Hc|]. apply Ht. discriminate.
Defined.

Lemma OnInit_theme (e : env) (d : bool) (s : state) :
  system_theme (snd (OnInit e d s))
  = (if system_theme_force s then system_theme s else theme_name d) /\
  system_theme_force (snd (OnInit e d s)) = system_theme_force s.
Proof.
  rewrite OnInit_run.
  set (s1 := if system_theme_force s then s
             else with_system_theme (theme_name d) s).
  assert (system_theme s1
          = (if system_theme_force s then system_theme s else theme_name d)
          /\ system_theme_force s1 = system_theme_force s) as [H1 H2]
    by (subst s1; destruct (system_theme_force s) eqn:E; split;
        try reflexivity; exact E).
  destruct (set_icons_theme e s1) as [H3 H4].
  destruct (set_icons e s1) as [[x|u] s2]; cbn [snd] in *; [split; congruence|].
  destruct (dict_lookup _ (systray_icon_state s2)); cbn [snd];
    [|split; congruence].
  destruct (update_icon_theme e (with_current_profile [] s2)) as [H5 H6].
  cbn [with_current_profile system_theme system_theme_force] in H5, H6.
  destruct (update_icon e _) as [[x|v] s3]; cbn [snd] in *; split; congruence.
Qed.

Lemma poll_keeps_forced (ticks : list tick) (s : state) :
  system_theme_force s = true ->
  system_theme (poll ticks s) = system_theme s /\
  system_theme_force (poll ticks s) = true.
Proof.
  unfold poll. revert s. induction ticks as [|t ts IH]; intros s Hf.
  - split; [reflexivity|exact Hf].
  - cbn [fold_left].
    destruct (on_timer_theme_cases (tick_env t) (tick_dark_check t)
                (tick_dark_refresh t) s) as [H1 [H2|[H2 _]]]; [|congruence].
    rewrite Hf in H1. destruct (IH _ H1) as [H3 H4].
    split; [congruence|exact H4].
Qed.

Lemma main_forced_run (e : env) (mouse_reverse d : bool) (theme : str)
    (s : state) :
  theme <> [] ->
  exists s0,
    main e mouse_reverse (Some theme) d s = OnInit e d s0 /\
    system_theme s0 = theme /\ system_theme_force s0 = true.
Proof.
  intros Hne. unfold main.
  assert (truthy theme = true) as -> by (now destruct theme).
  unfold bind, logger, emit, modify, ret.
  destruct mouse_reverse; eexists; (split; [reflexivity|split; reflexivity]).
Qed.

Lemma main_free_run (e : env) (mouse_reverse d : bool) (s : state) :
  exists s0,
    main e mouse_reverse None d s = OnInit e d s0 /\
    system_theme s0 = system_theme s /\
    system_theme_force s0 = system_theme_force s.
Proof.
  unfold main, bind, logger, emit, modify, ret.
  destruct mouse_reverse; eexists; (split; [reflexivity|split; reflexivity]).
Qed.

(** X11. When the program is started with a forced theme, the stored
    theme is that theme after start-up and after any number of timer
    events, whatever the OS reports and whether or not start-up raised.
    When it is started without one, the stored theme after start-up is
    the one the OS reported. *)
Theorem main_theme (e : env) (mouse_reverse d : bool) (ticks : list tick) :
  (forall theme : str,
     theme <> [] ->
     let s1 := snd (main e mouse_reverse (Some theme) d CONF_initial) in
     system_theme (poll ticks s1) = theme /\
     system_theme_force (poll ticks s1) = true) /\
  system_theme (snd (main e mouse_reverse None d CONF_initial)) = theme_name d.
Proof.
  split.
  - intros theme Hne s1. subst s1.
    destruct (main_forced_run e mouse_reverse d theme CONF_initial Hne)
      as [s0 [-> [Ht Hf]]].
    destruct (OnInit_theme e d s0) as [H1 H2]. rewrite Hf in H1, H2.
    destruct (poll_keeps_forced ticks _ H2) as [H3 H4].
    split; [congruence|exact H4].
  - destruct (main_free_run e mouse_reverse d CONF_initial) as [s0 [-> [Ht Hf]]].
    destruct (OnInit_theme e d s0) as [H1 _]. rewrite Hf in H1. exact H1.
Qed.

Lemma main_theme_witness :
  system_theme
    (poll [ {| tick_env := world TimedOut;
               tick_dark_check := true; tick_dark_refresh := false |} ]
       (snd (main (world TimedOut) false (Some (lit "dark")) false CONF_initial)))
  = lit "dark".
Proof.
  assert (lit "dark" <> []) as Hne by discriminate.
  exact (proj1 (proj1 (main_theme (world TimedOut) false false _)
                  (lit "dark") Hne)).
Defined.

(** ** The shape of what the commands return *)

Lemma no_linebreak_app (a b : str) :
  no_linebreak a -> no_linebreak b -> no_linebreak (a ++ b).
Proof.
  unfold no_linebreak. intros Ha Hb. rewrite forallb_app. now rewrite Ha, Hb.
Qed.

Lemma no_linebreak_incl (a b : str) :
  (forall c, In c a -> In c b) -> no_linebreak b -> no_linebreak a.
Proof.
  unfold no_linebreak. rewrite !forallb_forall. auto.
Qed.

Lemma splitlines_no_linebreak_upto (n : nat) (s : str) :
  (length s <= n)%nat -> Forall no_linebreak (splitlines s).
Proof.
  revert s. induction n as [|n IH]; intros s Hlen.
  - destruct s; [constructor|cbn [length] in Hlen; lia].
  - destruct s as [|c s']; [constructor|].
    cbn [length] in Hlen. cbn [splitlines].
    destruct (islinebreak c) eqn:Hc.
    + constructor; [reflexivity|].
      destruct s' as [|d s'']; [constructor|].
      cbn [length] in Hlen.
      destruct ((c =? CR) && (d =? LF)); apply IH; cbn [length]; lia.
    + pose proof (IH s' ltac:(lia)) as Hrec.
      destruct (splitlines s') as [|l ls]; constructor.
      * unfold no_linebreak. cbn [forallb]. now rewrite Hc.
      * constructor.
      * inversion Hrec as [|? ? Hl Hls]; subst.
        unfold no_linebreak in *. cbn [forallb]. now rewrite Hc.
      * now inversion Hrec.
Qed.

Lemma splitlines_no_linebreak (s : str) : Forall no_linebreak (splitlines s).
Proof. apply (splitlines_no_linebreak_upto (length s)). lia. Qed.

(** X12. Every output line that [parser] returns is free of line
    boundaries and has no whitespace at either end. *)
Theorem parser_output_lines (e : env) (cmd : str) (s : state) (r : parsed) :
  fst (parser e cmd s) = inr r ->
  Forall (fun l => trimmed l /\ no_linebreak l) (output r).
Proof.
  rewrite parser_run. destruct (shlex_split cmd) as [argv|]; [|discriminate].
  cbn [fst]. destruct argv as [|a argv]; [discriminate|].
  destruct (forallb (accepted e) (a :: argv)); [|discriminate].
  destruct (run e (a :: argv)) as [rc stdout| |]; try discriminate;
    intros E; injection E as <-; cbn [output]; [|constructor].
  pose proof (splitlines_no_linebreak stdout) as H.
  induction H as [|l ls Hl _ IH]; cbn [map]; constructor; [|exact IH].
  split; [apply strip_trimmed|].
  apply (no_linebreak_incl _ l); [apply strip_incl|exact Hl].
Qed.

Lemma parser_output_lines_witness :
  Forall (fun l => trimmed l /\ no_linebreak l)
    [lit "* performance:"; lit "CpuDriver:" ++ [TAB] ++ lit "intel_pstate"; []].
Proof.
  exact (parser_output_lines
           (world (Exited 0 (lit "* performance:" ++ [CR; LF; SPACE; TAB]
                             ++ lit "CpuDriver:" ++ [TAB] ++ lit "intel_pstate  "
                             ++ [LF; LF])))
           (lit "/usr/bin/powerprofilesctl list") (tray [] false []) _ eq_refl).
Defined.

Lemma get_profiles_run (e : env) (s : state) :
  get_profiles e s =
  (match run e list_argv with
   | Exited rc stdout =>
       inr {| profiles_error_code := str_of_int rc;
              profiles := profiles_of CONF.powerprofilesctl_excluded_lines
                            (map strip (splitlines stdout)) |}
   | TimedOut => inr {| profiles_error_code := lit "1"; profiles := [] |}
   | LaunchFailed => inl OSError
   end,
   with_trace (trace s ++ [Popen list_argv]) s).
Proof.
  unfold get_profiles, bind at 1. rewrite parser_run, list_command_argv.
  unfold list_argv at 1. rewrite accepted_list_argv.
  destruct (run e list_argv); reflexivity.
Qed.

(** X13. Whatever the list command prints, no entry of the profile
    list holds an asterisk, a colon or a line boundary, none has
    whitespace at its ends, and each one is the cleaning of an output
    line of the command that is not empty and holds no exclusion marker:
    that line without its asterisks and colons, and then without the
    whitespace around what is left. *)
Theorem get_profiles_entries (e : env) (s : state) (r : profiles_result) :
  fst (get_profiles e s) = inr r ->
  Forall (fun p => trimmed p /\ no_linebreak p /\ ~ In STAR p /\ ~ In COLON p /\
                   exists line,
                     In line (output_lines (run e list_argv)) /\
                     line <> [] /\ ~ marked line /\
                     p = clean line /\ stripped_from (undecorated line) p)
    (profiles r).
Proof.
  rewrite get_profiles_run. cbn [fst].
  destruct (run e list_argv) as [rc stdout| |]; try discriminate;
    intros E; injection E as <-; cbn [profiles]; [|constructor].
  apply Forall_forall. intros p Hp. unfold profiles_of in Hp.
  apply in_map_iff in Hp as [line [<- Hin]].
  apply filter_In in Hin as [Hin Hk]. apply keep_spec in Hk as [Hne Hnm].
  split; [apply strip_trimmed|]. split.
  - apply (no_linebreak_incl _ line); [intros c Hc; now apply clean_in in Hc|].
    apply in_map_iff in Hin as [raw [<- Hraw]].
    apply (no_linebreak_incl _ raw); [apply strip_incl|].
    pose proof (splitlines_no_linebreak stdout) as H.
    rewrite Forall_forall in H. auto.
  - split; [intros H; apply clean_in in H; tauto|].
    split; [intros H; apply clean_in in H; tauto|].
    exists line. cbn [output_lines].
    split; [exact Hin|]. split; [exact Hne|]. split; [exact Hnm|].
    split; [reflexivity|apply clean_undecorated].
Qed.

Lemma get_profiles_entries_witness :
  Forall (fun p => trimmed p /\ no_linebreak p /\ ~ In STAR p /\ ~ In COLON p /\
                   exists line,
                     In line (output_lines
                                (Exited 0 (unlines (map raw_line sample_list_output)))) /\
                     line <> [] /\ ~ marked line /\
                     p = clean line /\ stripped_from (undecorated line) p)
    [lit "performance"; lit "balanced"; lit "power-saver"].
Proof.
  exact (get_profiles_entries
           (world (Exited 0 (unlines (map raw_line sample_list_output))))
           (tray [] false []) _ eq_refl).
Defined.

(** ** What the commands print and what comes back *)

Lemma lstrip_indent (w t : str) :
  forallb isspace w = true -> lstrip (w ++ t) = lstrip t.
Proof.
  induction w as [|c w IH]; [reflexivity|].
  cbn [forallb app lstrip]. intros H. apply andb_true_iff in H as [Hc Hw].
  rewrite Hc. auto.
Qed.

Lemma rstrip_indent (t w : str) :
  forallb isspace w = true -> rstrip (t ++ w) = rstrip t.
Proof.
  intros H. unfold rstrip. rewrite rev_app_distr, lstrip_indent; [reflexivity|].
  rewrite forallb_forall in *. intros c Hc. apply H. now apply in_rev.
Qed.

Lemma strip_padded (w1 t w2 : str) :
  forallb isspace w1 = true -> forallb isspace w2 = true -> trimmed t ->
  strip (w1 ++ t ++ w2) = t.
Proof.
  intros H1 H2 [Ht1 Ht2]. unfold strip.
  rewrite lstrip_indent by assumption.
  destruct t as [|c t'].
  - cbn [app]. destruct (lstrip_split w2) as [l [E Hl]].
    assert (lstrip w2 = []) as ->; [|reflexivity].
    clear E Hl l. induction w2 as [|x w2 IH]; [reflexivity|].
    cbn [forallb lstrip] in *. apply andb_true_iff in H2 as [Hx Hw].
    rewrite Hx. auto.
  - rewrite lstrip_id by (cbn [app starts_space]; exact Ht1).
    rewrite rstrip_indent by assumption. now apply rstrip_id.
Qed.

Lemma strip_indented (w t : str) :
  forallb isspace w = true -> trimmed t -> strip (w ++ t) = t.
Proof.
  intros Hw Ht. rewrite <- (app_nil_r t) at 1.
  now apply strip_padded.
Qed.

Lemma replace_app (old : char) (new a b : str) :
  replace old new (a ++ b) = replace old new a ++ replace old new b.
Proof. unfold replace. apply flat_map_app. Qed.

Lemma trimmed_ends (c d : char) (m : str) :
  isspace c = false -> isspace d = false -> trimmed ((c :: m) ++ [d]).
Proof.
  intros Hc Hd. split; [exact Hc|].
  rewrite rev_app_distr. exact Hd.
Qed.

Lemma header_text_trimmed (active : bool) (name : str) :
  clean_name name -> trimmed (header_text active name).
Proof.
  intros [Hne [[Hs _] _]]. unfold header_text.
  destruct active.
  - change (lit "* " ++ name ++ [COLON])
      with ((STAR :: SPACE :: name) ++ [COLON]).
    now apply trimmed_ends.
  - destruct name as [|c name]; [contradiction|].
    cbn [app]. apply (trimmed_ends c COLON name); [exact Hs|reflexivity].
Qed.

Lemma header_text_clean (active : bool) (name : str) :
  clean_name name -> clean (header_text active name) = name.
Proof.
  intros [Hne [Ht [_ [Hstar Hcolon]]]]. unfold clean, header_text.
  rewrite !replace_app, (replace_empty_absent STAR name Hstar).
  rewrite ?replace_app, (replace_empty_absent COLON name Hcolon).
  destruct active.
  - change (replace COLON [] (replace STAR [] (lit "* "))) with [SPACE].
    change (replace COLON [] (replace STAR [] [COLON])) with (@nil char).
    rewrite app_nil_r. now apply strip_indented.
  - change (replace COLON [] (replace STAR [] [COLON])) with (@nil char).
    cbn [replace flat_map app]. rewrite app_nil_r. now apply strip_id.
Qed.

Lemma header_text_kept (active : bool) (name : str) :
  clean_name name ->
  (forall x, In x CONF.powerprofilesctl_excluded_lines ->
             contains x (name ++ [COLON]) = false) ->
  keep CONF.powerprofilesctl_excluded_lines (header_text active name) = true.
Proof.
  intros [Hne _] Hex. apply keep_true. unfold header_text. split.
  - destruct active; [discriminate|]. destruct name; [contradiction|discriminate].
  - intros x Hx. destruct active; [|now apply Hex].
    change (lit "* " ++ name ++ [COLON])
      with (STAR :: SPACE :: (name ++ [COLON])).
    cbn [contains]. rewrite (Hex x Hx).
    cbn [In CONF.powerprofilesctl_excluded_lines] in Hx.
    destruct Hx as [<-|[<-|[<-|[]]]]; reflexivity.
Qed.

Lemma keep_marked (text : str) :
  (exists x, In x CONF.powerprofilesctl_excluded_lines /\ contains x text = true) ->
  keep CONF.powerprofilesctl_excluded_lines text = false.
Proof.
  intros [x [Hx Hc]]. unfold keep. rewrite any_map.
  assert (existsb (fun x => contains x text) CONF.powerprofilesctl_excluded_lines
          = true) as ->; [|apply andb_false_r].
  apply existsb_exists. now exists x.
Qed.

Lemma raw_line_no_linebreak (l : list_line) :
  well_formed_line l -> no_linebreak (raw_line l).
Proof.
  destruct l as [ind active name|ind text|ind]; cbn [well_formed_line raw_line].
  - intros [[_ Hi] [[_ [_ [Hn _]]] _]]. apply no_linebreak_app; [exact Hi|].
    unfold header_text. apply no_linebreak_app; [now destruct active|].
    apply no_linebreak_app; [exact Hn|reflexivity].
  - intros [[_ Hi] [_ [Ht _]]]. now apply no_linebreak_app.
  - now intros [_ Hi].
Qed.

Lemma profiles_of_list_lines (ls : list list_line) :
  Forall well_formed_line ls ->
  profiles_of CONF.powerprofilesctl_excluded_lines (map strip (map raw_line ls))
  = header_names ls.
Proof.
  unfold profiles_of.
  induction 1 as [|l ls Hl _ IH]; [reflexivity|].
  cbn [map header_names flat_map filter].
  destruct l as [ind active name|ind text|ind]; cbn [well_formed_line raw_line] in *.
  - destruct Hl as [[Hi _] [Hn Hex]].
    rewrite (strip_indented ind _ Hi (header_text_trimmed active name Hn)).
    rewrite (header_text_kept active name Hn Hex). cbn [map app].
    rewrite (header_text_clean active name Hn). f_equal. exact IH.
  - destruct Hl as [[Hi _] [Ht [_ Hm]]].
    rewrite (strip_indented ind text Hi Ht), (keep_marked text Hm). exact IH.
  - destruct Hl as [Hi _].
    rewrite <- (app_nil_r ind), (strip_indented ind [] Hi); [exact IH|].
    split; reflexivity.
Qed.

(** X14. On output of the shape [powerprofilesctl list] prints, a
    header per profile (with or without the asterisk of the active one),
    detail lines that hold an exclusion marker, and blank lines, all
    indented at will, [get_profiles] returns exactly the names of the
    headers, in order and with repetitions kept, provided each name is
    clean and no header holds an exclusion marker. *)
Theorem get_profiles_listing (e : env) (s : state) (rc : Z) (ls : list list_line) :
  Forall well_formed_line ls ->
  run e list_argv = Exited rc (unlines (map raw_line ls)) ->
  fst (get_profiles e s) =
  inr {| profiles_error_code := str_of_int rc; profiles := header_names ls |}.
Proof.
  intros Hwf Hrun. rewrite get_profiles_run, Hrun. cbn [fst].
  rewrite splitlines_unlines.
  - now rewrite profiles_of_list_lines.
  - apply Forall_forall. intros raw Hin.
    apply in_map_iff in Hin as [l [<- Hl]].
    apply raw_line_no_linebreak. rewrite Forall_forall in Hwf. auto.
Qed.

Lemma sample_list_output_well_formed : Forall well_formed_line sample_list_output.
Proof.
  assert (forall n : str,
             (exists x, In x CONF.powerprofilesctl_excluded_lines /\
                        contains x n = true) \/
             (forall x, In x CONF.powerprofilesctl_excluded_lines ->
                        contains x n = false)) as Hdec.
  { intros n.
    destruct (existsb (fun x => contains x n) CONF.powerprofilesctl_excluded_lines)
      eqn:E.
    - left. apply existsb_exists in E. exact E.
    - right. intros x Hx. destruct (contains x n) eqn:Ec; [|reflexivity].
      assert (existsb (fun x => contains x n)
                CONF.powerprofilesctl_excluded_lines = true)
        by (apply existsb_exists; now exists x).
      congruence. }
  assert (forall n : str, existsb (N.eqb STAR) n = false -> ~ In STAR n) as Hs.
  { intros n E H. assert (existsb (N.eqb STAR) n = true); [|congruence].
    apply existsb_exists. exists STAR. split; [exact H|apply N.eqb_refl]. }
  assert (forall n : str, existsb (N.eqb COLON) n = false -> ~ In COLON n) as Hc.
  { intros n E H. assert (existsb (N.eqb COLON) n = true); [|congruence].
    apply existsb_exists. exists COLON. split; [exact H|apply N.eqb_refl]. }
  unfold sample_list_output.
  repeat (apply Forall_cons || apply Forall_nil);
    cbn [well_formed_line]; unfold indent, clean_name, trimmed, no_linebreak.
  - repeat split; try reflexivity; try discriminate;
      [now apply Hs|now apply Hc|].
    destruct (Hdec (lit "performance" ++ [COLON])) as [[x [Hx E]]|H]; [|exact H].
    cbn [In CONF.powerprofilesctl_excluded_lines] in Hx.
    destruct Hx as [<-|[<-|[<-|[]]]]; discriminate.
  - repeat split; try reflexivity.
    exists (lit "CpuDriver:"). split; [now left|reflexivity].
  - repeat split; try reflexivity.
    exists (lit "Degraded:"). split; [right; now left|reflexivity].
  - repeat split; reflexivity.
  - repeat split; try reflexivity; try discriminate;
      [now apply Hs|now apply Hc|].
    destruct (Hdec (lit "balanced" ++ [COLON])) as [[x [Hx E]]|H]; [|exact H].
    cbn [In CONF.powerprofilesctl_excluded_lines] in Hx.
    destruct Hx as [<-|[<-|[<-|[]]]]; discriminate.
  - repeat split; try reflexivity.
    exists (lit "PlatformDriver:"). split; [right; right; now left|reflexivity].
  - repeat split; reflexivity.
  - repeat split; try reflexivity; try discriminate;
      [now apply Hs|now apply Hc|].
    destruct (Hdec (lit "power-saver" ++ [COLON])) as [[x [Hx E]]|H]; [|exact H].
    cbn [In CONF.powerprofilesctl_excluded_lines] in Hx.
    destruct Hx as [<-|[<-|[<-|[]]]]; discriminate.
Defined.

Lemma get_profiles_listing_witness :
  fst (get_profiles (world (Exited 0 (unlines (map raw_line sample_list_output))))
         (tray [] false []))
  = inr {| profiles_error_code := lit "0";
           profiles := [lit "performance"; lit "balanced"; lit "power-saver"] |}.
Proof.
  exact (get_profiles_listing
           (world (Exited 0 (unlines (map raw_line sample_list_output))))
           (tray [] false []) 0%Z sample_list_output
           sample_list_output_well_formed eq_refl).
Defined.

Lemma next_truthy_blanks (blanks : list str) (rest : list str) (default : str) :
  Forall (fun l => l = []) blanks ->
  next_truthy (blanks ++ rest) default = next_truthy rest default.
Proof. induction 1 as [|l ls -> _ IH]; [reflexivity|exact IH]. Qed.

(** X15. When the get command prints, after any number of blank lines,
    a line made of a name with whitespace around it, [get_active_profile]
    returns that name, whatever the exit code and whatever follows,
    provided the name is not empty, has no whitespace at its ends and no
    line boundary. *)
Theorem get_active_profile_reads_name (e : env) (s : state) (rc : Z)
    (blanks rest : list str) (w1 name w2 : str) :
  Forall indent blanks -> indent w1 -> indent w2 ->
  name <> [] -> trimmed name -> no_linebreak name ->
  Forall no_linebreak rest ->
  run e get_argv = Exited rc (unlines (blanks ++ (w1 ++ name ++ w2) :: rest)) ->
  fst (get_active_profile e s) =
  inr {| active_error_code := str_of_int rc; profile := name |}.
Proof.
  intros Hb [Hw1 Hl1] [Hw2 Hl2] Hne Ht Hl Hrest Hrun.
  rewrite get_active_profile_run, Hrun. cbn [fst reported_profile]. f_equal.
  f_equal. rewrite splitlines_unlines.
  - rewrite map_app. cbn [map]. rewrite next_truthy_blanks.
    + cbn [next_truthy]. rewrite (strip_padded w1 name w2 Hw1 Hw2 Ht).
      destruct name; [contradiction|reflexivity].
    + clear Hrun. induction Hb as [|b bs [Hbw _] _ IH]; cbn [map]; constructor;
        [|exact IH].
      rewrite <- (app_nil_r b). apply strip_indented; [exact Hbw|split; reflexivity].
  - apply Forall_app. split.
    + apply Forall_forall. intros b Hin. rewrite Forall_forall in Hb.
      exact (proj2 (Hb b Hin)).
    + constructor; [|exact Hrest].
      apply no_linebreak_app; [exact Hl1|]. now apply no_linebreak_app.
Qed.

Lemma get_active_profile_reads_name_witness :
  fst (get_active_profile
         (world (Exited 3 (unlines [[]; lit "  "; lit " power-saver " ++ [TAB];
                                    lit "balanced"])))
         (tray [] false []))
  = inr {| active_error_code := lit "3"; profile := lit "power-saver" |}.
Proof.
  apply (get_active_profile_reads_name _ (tray [] false []) 3%Z
           [[]; lit "  "] [lit "balanced"] (lit " ") (lit "power-saver")
           (lit " " ++ [TAB])).
  - repeat constructor.
  - split; reflexivity.
  - split; reflexivity.
  - discriminate.
  - split; reflexivity.
  - reflexivity.
  - repeat constructor.
  - reflexivity.
Defined.

(** ** The profile menu *)

Lemma menu_fold (active : str) (names : list str) (acc : list menu_item) :
  fold_left
    (fun menu profile =>
       menu ++ [{| label := profile; checked := str_eqb profile active;
                   bound_profile := profile |}])
    names acc
  = acc ++ map (fun profile =>
                  {| label := profile; checked := str_eqb profile active;
                     bound_profile := profile |}) names.
Proof.
  revert acc. induction names as [|n ns IH]; intros acc; cbn [fold_left map].
  - now rewrite app_nil_r.
  - rewrite IH, <- app_assoc. reflexivity.
Qed.

Lemma create_left_click_menu_run (e : env) (s : state) :
  run e list_argv <> LaunchFailed ->
  run e get_argv <> LaunchFailed ->
  create_left_click_menu e s =
  (inr (map (fun profile =>
               {| label := profile;
                  checked := str_eqb profile (reported_profile (run e get_argv));
                  bound_profile := profile |})
          (listed_profiles (run e list_argv))),
   with_trace (trace s ++ [Popen list_argv; Popen get_argv]) s).
Proof.
  intros Hlist Hget. unfold create_left_click_menu, bind.
  rewrite get_profiles_run, get_active_profile_run. unfold ret.
  cbn [with_trace trace]. rewrite <- app_assoc. cbn [app].
  destruct (run e list_argv) eqn:El; try congruence;
    destruct (run e get_argv) eqn:Eg; try congruence;
    cbn [profiles profile listed_profiles reported_profile];
    rewrite menu_fold; reflexivity.
Qed.

(** X16. The menu built by [create_left_click_menu] has one radio item
    per entry of the profile list, in the same order; the handler of each
    item sets the profile named by its own label; [Check] is called on an
    item exactly when its label is the profile the get command reported.
    Building the menu starts the list command and then the get command,
    and changes nothing else. *)
Theorem create_left_click_menu_items (e : env) (s : state) :
  run e list_argv <> LaunchFailed ->
  run e get_argv <> LaunchFailed ->
  exists menu,
    create_left_click_menu e s =
    (inr menu, with_trace (trace s ++ [Popen list_argv; Popen get_argv]) s) /\
    map label menu = listed_profiles (run e list_argv) /\
    Forall (fun item =>
              bound_profile item = label item /\
              (checked item = true <->
               label item = reported_profile (run e get_argv)))
      menu.
Proof.
  intros Hlist Hget. eexists. split; [now apply create_left_click_menu_run|].
  split.
  - rewrite map_map. cbn [label]. apply map_id.
  - apply Forall_forall. intros item Hin.
    apply in_map_iff in Hin as [n [<- _]]. cbn [label checked bound_profile].
    split; [reflexivity|apply str_eqb_eq].
Qed.

Lemma create_left_click_menu_items_witness :
  let e := world_of (Exited 0 (unlines (map raw_line sample_list_output)))
                    (Exited 0 (unlines [lit "balanced"])) TimedOut in
  exists menu,
    fst (create_left_click_menu e CONF_initial) = inr menu /\
    map label menu = [lit "performance"; lit "balanced"; lit "power-saver"] /\
    map checked menu = [false; true; false].
Proof.
  intros e.
  assert (run e list_argv <> LaunchFailed) as Hl by discriminate.
  assert (run e get_argv <> LaunchFailed) as Hg by discriminate.
  destruct (create_left_click_menu_items e CONF_initial Hl Hg)
    as [menu [Hrun [Hlabels _]]].
  exists menu. split; [now rewrite Hrun|]. split; [exact Hlabels|].
  rewrite (create_left_click_menu_run e CONF_initial Hl Hg) in Hrun.
  injection Hrun as <-. reflexivity.
Defined.

Lemma nodup_all_equal (a : str) (l : list str) :
  NoDup l -> (forall x, In x l -> x = a) -> (length l <= 1)%nat.
Proof.
  intros Hnd Hall. destruct l as [|x [|y l]]; cbn [length]; try lia.
  exfalso. inversion Hnd as [|? ? Hx _]; subst. apply Hx.
  rewrite (Hall x), (Hall y); cbn [In]; auto.
Qed.

Lemma checked_items (active : str) (names : list str) :
  filter checked
    (map (fun profile =>
            {| label := profile; checked := str_eqb profile active;
               bound_profile := profile |}) names)
  = map (fun profile =>
           {| label := profile; checked := str_eqb profile active;
              bound_profile := profile |})
        (filter (fun profile => str_eqb profile active) names).
Proof.
  induction names as [|n ns IH]; [reflexivity|].
  cbn [map filter checked].
  destruct (str_eqb n active) eqn:E; cbn [map]; rewrite IH, ?E; reflexivity.
Qed.

(** X17. In the menu, an item is checked when the reported profile is
    in the profile list, none is when it is not, and at most one is when
    the list has no repetition. *)
Theorem create_left_click_menu_checked (e : env) (s : state)
    (menu : list menu_item) :
  fst (create_left_click_menu e s) = inr menu ->
  let names := listed_profiles (run e list_argv) in
  let active := reported_profile (run e get_argv) in
  (In active names -> exists item, In item menu /\ checked item = true) /\
  (~ In active names -> filter checked menu = []) /\
  (NoDup names -> (length (filter checked menu) <= 1)%nat).
Proof.
  intros Hmenu names active.
  assert (run e list_argv <> LaunchFailed /\ run e get_argv <> LaunchFailed)
    as [Hl Hg].
  { unfold create_left_click_menu, bind in Hmenu.
    rewrite get_profiles_run, get_active_profile_run in Hmenu.
    split; intros E; rewrite E in Hmenu;
      [|destruct (run e list_argv)]; discriminate. }
  rewrite (create_left_click_menu_run e s Hl Hg) in Hmenu.
  injection Hmenu as <-. fold names active. rewrite checked_items.
  split; [|split].
  - intros Hin. eexists. split; [apply in_map; exact Hin|].
    cbn [checked]. apply str_eqb_refl.
  - intros Hnot.
    assert (filter (fun profile => str_eqb profile active) names = []) as ->;
      [|reflexivity].
    induction names as [|n ns IH]; [reflexivity|]. cbn [filter].
    destruct (str_eqb n active) eqn:E.
    + apply str_eqb_eq in E. exfalso. apply Hnot. now left.
    + apply IH. intros H. apply Hnot. now right.
  - intros Hnd. rewrite length_map.
    apply (nodup_all_equal active).
    + now apply NoDup_filter.
    + intros x Hx. apply filter_In in Hx as [_ Hx]. now apply str_eqb_eq.
Qed.

Lemma create_left_click_menu_checked_witness :
  let e := world_of (Exited 0 (unlines (map raw_line sample_list_output)))
                    TimedOut TimedOut in
  exists menu,
    fst (create_left_click_menu e CONF_initial) = inr menu /\
    filter checked menu = [].
Proof.
  intros e. eexists. split; [reflexivity|].
  refine (proj1 (proj2 (create_left_click_menu_checked e CONF_initial _ eq_refl)) _).
  vm_compute. intros [H|[H|[H|[]]]]; discriminate.
Defined.

(** ** The name given to [set_profile] *)

Lemma shlex_read_words (ws : list str) (rest : str) :
  Forall plain_word ws -> ws <> [] ->
  shlex_read Blank [] false (join_space ws ++ SPACE :: rest) =
  match shlex_read Blank [] false rest with
  | Some ts => Some (ws ++ ts)
  | None => None
  end.
Proof.
  induction 1 as [|w ws Hw Hws IH]; intros Hne; [contradiction|].
  assert (truthy w = true) as Ht by (destruct Hw as [H _]; now destruct w).
  destruct ws as [|w' ws].
  - cbn [join_space]. rewrite shlex_read_blank by assumption.
    cbn [shlex_read]. change (shlex_whitespace SPACE) with true. cbn iota.
    rewrite Ht. cbn [orb app]. reflexivity.
  - change (join_space (w :: w' :: ws)) with (w ++ SPACE :: join_space (w' :: ws)).
    rewrite <- app_assoc. cbn [app].
    rewrite shlex_read_blank by assumption.
    cbn [shlex_read]. change (shlex_whitespace SPACE) with true. cbn iota.
    rewrite IH by discriminate. rewrite Ht. cbn [orb].
    destruct (shlex_read Blank [] false rest); reflexivity.
Qed.

Lemma set_command_split (name : str) :
  shlex_split (command ++ lit " " ++ CONF.cmds_set ++ lit " " ++ name) =
  match shlex_read Blank [] false name with
  | Some ts => Some (CONF.powerprofilesctl :: lit "set" :: ts)
  | None => None
  end.
Proof.
  unfold shlex_split.
  change (command ++ lit " " ++ CONF.cmds_set ++ lit " " ++ name)
    with (join_space [CONF.powerprofilesctl; lit "set"] ++ SPACE :: name).
  rewrite shlex_read_words; [reflexivity| |discriminate].
  repeat constructor; discriminate.
Qed.

Lemma set_profile_run (e : env) (name : str) (s : state) :
  set_profile e name s =
  match shlex_read Blank [] false name with
  | None =>
      (inl ValueError,
       with_trace (trace s ++ [Print (lit "Set profile: " ++ name)]) s)
  | Some ts =>
      (if forallb (accepted e) (CONF.powerprofilesctl :: lit "set" :: ts) then
         match run e (CONF.powerprofilesctl :: lit "set" :: ts) with
         | Exited rc _ => inr (rc =? 0)%Z
         | TimedOut => inr false
         | LaunchFailed => inl OSError
         end
       else inl ValueError,
       with_trace (trace s ++ [Print (lit "Set profile: " ++ name);
                               Popen (CONF.powerprofilesctl :: lit "set" :: ts)]) s)
  end.
Proof.
  unfold set_profile, bind at 1, logger, emit, modify. cbn [fst snd].
  unfold bind. rewrite parser_run, set_command_split.
  destruct (shlex_read Blank [] false name) as [ts|]; [|reflexivity].
  cbn [with_trace trace]. rewrite <- app_assoc. cbn [app].
  destruct (forallb (accepted e) _); [|reflexivity].
  destruct (run e _) as [rc out| |]; try reflexivity.
  unfold ret. cbn [error_code]. do 2 f_equal.
  destruct (Z.eqb_spec rc 0) as [->|Hrc]; [reflexivity|].
  apply str_eqb_neq. intros E. now apply str_of_int_zero in E.
Qed.

(** X18. [set_profile] hands the process one argument per word of the
    name: for a name made of words without whitespace, quote or
    backslash, joined by single spaces, the exec vector is the program,
    "set" and then each word; an empty name gives no argument at all. *)
Theorem set_profile_words (e : env) (s : state) (ws : list str) :
  Forall plain_word ws ->
  trace (snd (set_profile e (join_space ws) s)) =
  trace s ++ [Print (lit "Set profile: " ++ join_space ws);
              Popen (CONF.powerprofilesctl :: lit "set" :: ws)].
Proof.
  intros Hws. rewrite set_profile_run.
  pose proof (shlex_split_join_space ws Hws) as H. unfold shlex_split in H.
  now rewrite H.
Qed.

Lemma set_profile_words_witness :
  trace (snd (set_profile (world TimedOut) (lit "power saver now") (tray [] false [])))
  = [Print (lit "Set profile: power saver now");
     Popen [CONF.powerprofilesctl; lit "set"; lit "power"; lit "saver"; lit "now"]]
  /\ trace (snd (set_profile (world TimedOut) [] (tray [] false [])))
     = [Print (lit "Set profile: "); Popen [CONF.powerprofilesctl; lit "set"]].
Proof.
  split.
  - apply (set_profile_words (world TimedOut) (tray [] false [])
             [lit "power"; lit "saver"; lit "now"]).
    repeat constructor; discriminate.
  - exact (set_profile_words (world TimedOut) (tray [] false []) []
             (Forall_nil _)).
Defined.

Lemma shlex_read_squote_open (w token : str) :
  ~ In SQUOTE w -> shlex_read (InQuote SQUOTE) token true w = None.
Proof.
  revert token. induction w as [|c w IH]; intros token H; [reflexivity|].
  cbn [shlex_read].
  destruct (N.eqb_spec c SQUOTE) as [->|Hc]; [exfalso; apply H; now left|].
  change (SQUOTE =? DQUOTE) with false. rewrite andb_false_r.
  apply IH. intros Hin. apply H. now right.
Qed.

Lemma shlex_read_squote_closed (w token rest : str) :
  ~ In SQUOTE w ->
  shlex_read (InQuote SQUOTE) token true (w ++ SQUOTE :: rest) =
  shlex_read Word (token ++ w) true rest.
Proof.
  revert token. induction w as [|c w IH]; intros token H.
  - cbn [app shlex_read]. rewrite N.eqb_refl. now rewrite app_nil_r.
  - cbn [app shlex_read].
    destruct (N.eqb_spec c SQUOTE) as [->|Hc]; [exfalso; apply H; now left|].
    change (SQUOTE =? DQUOTE) with false. rewrite andb_false_r.
    rewrite IH by (intros Hin; apply H; now right).
    now rewrite <- app_assoc.
Qed.

(** X19. A name that opens a single quote and never closes it makes
    [set_profile] raise [ValueError] after the log line: no process is
    started. *)
Theorem set_profile_unclosed_quote (e : env) (s : state) (w : str) :
  ~ In SQUOTE w ->
  set_profile e (SQUOTE :: w) s =
  (inl ValueError,
   with_trace (trace s ++ [Print (lit "Set profile: " ++ SQUOTE :: w)]) s).
Proof.
  intros H. rewrite set_profile_run.
  cbn [shlex_read]. change (shlex_whitespace SQUOTE) with false.
  change (SQUOTE =? BACKSLASH) with false. change (shlex_quote SQUOTE) with true.
  cbn iota. now rewrite shlex_read_squote_open.
Qed.

Lemma set_profile_unclosed_quote_witness :
  fst (set_profile (world (Exited 0 [])) (SQUOTE :: lit "balanced")
         (tray [] false [])) = inl ValueError.
Proof.
  assert (~ In SQUOTE (lit "balanced")) as H
    by (vm_compute; intuition discriminate).
  now rewrite (set_profile_unclosed_quote (world (Exited 0 [])) (tray [] false [])
                 (lit "balanced") H).
Defined.

(** X20. A name written between single quotes reaches the process as
    one argument, without the quotes, spaces included. *)
Theorem set_profile_quoted_name (e : env) (s : state) (w : str) :
  ~ In SQUOTE w ->
  trace (snd (set_profile e (SQUOTE :: w ++ [SQUOTE]) s)) =
  trace s ++ [Print (lit "Set profile: " ++ SQUOTE :: w ++ [SQUOTE]);
              Popen (set_argv w)].
Proof.
  intros H. rewrite set_profile_run.
  cbn [shlex_read]. change (shlex_whitespace SQUOTE) with false.
  change (SQUOTE =? BACKSLASH) with false. change (shlex_quote SQUOTE) with true.
  cbn iota. rewrite shlex_read_squote_closed by assumption.
  cbn [shlex_read app]. rewrite orb_true_r. reflexivity.
Qed.

Lemma set_profile_quoted_name_witness :
  trace (snd (set_profile (world TimedOut) (lit "'power saver'") (tray [] false [])))
  = [Print (lit "Set profile: 'power saver'"); Popen (set_argv (lit "power saver"))].
Proof.
  assert (~ In SQUOTE (lit "power saver")) as H
    by (vm_compute; intuition discriminate).
  exact (set_profile_quoted_name (world TimedOut) (tray [] false [])
           (lit "power saver") H).
Defined.

(** X21. Choosing an item of the menu whose label is one plain word that
    [Popen] accepts as an argument (no NUL character, only characters
    the file-system encoding can encode) starts the set command with
    that label as its single argument, and the handler returns true
    exactly when the command exits with code 0. *)
Theorem menu_item_sets_its_label (e : env) (s s' : state)
    (menu : list menu_item) (item : menu_item) :
  fst (create_left_click_menu e s) = inr menu ->
  In item menu ->
  plain_word (label item) ->
  accepted e (label item) = true ->
  trace (snd (on_menu_item e item s')) =
  trace s' ++ [Print (lit "Set profile: " ++ label item);
               Popen (set_argv (label item))] /\
  (forall rc stdout,
     run e (set_argv (label item)) = Exited rc stdout ->
     fst (on_menu_item e item s') = inr (rc =? 0)%Z).
Proof.
  intros Hmenu Hin Hplain Hacc.
  assert (bound_profile item = label item) as Hb.
  { unfold create_left_click_menu, bind in Hmenu.
    destruct (get_profiles e s) as [[x|r] s1]; [discriminate|].
    destruct (get_active_profile e s1) as [[x|a] s2]; [discriminate|].
    unfold ret in Hmenu. cbn [fst] in Hmenu. injection Hmenu as <-.
    rewrite menu_fold in Hin. cbn [app] in Hin.
    apply in_map_iff in Hin as [n [<- _]]. reflexivity. }
  unfold on_menu_item. rewrite Hb, set_profile_run.
  pose proof (shlex_split_join_space [label item]) as H.
  unfold shlex_split in H. cbn [join_space] in H.
  rewrite H by (constructor; [exact Hplain|constructor]).
  rewrite accepted_set_argv, Hacc.
  split; [reflexivity|]. intros rc stdout Hrun. cbn [fst].
  unfold set_argv in Hrun. now rewrite Hrun.
Qed.

Lemma menu_item_sets_its_label_witness :
  let e := world_of (Exited 0 (unlines (map raw_line sample_list_output)))
                    (Exited 0 (unlines [lit "balanced"])) (Exited 0 []) in
  let item := {| label := lit "power-saver"; checked := false;
                 bound_profile := lit "power-saver" |} in
  trace (snd (on_menu_item e item (tray [] false []))) =
  [Print (lit "Set profile: power-saver"); Popen (set_argv (lit "power-saver"))] /\
  fst (on_menu_item e item (tray [] false [])) = inr true.
Proof.
  intros e item.
  assert (plain_word (label item)) as Hp by (split; [discriminate|reflexivity]).
  assert (In item [ {| label := lit "performance"; checked := false;
                       bound_profile := lit "performance" |};
                    {| label := lit "balanced"; checked := true;
                       bound_profile := lit "balanced" |}; item ]) as Hin
    by (right; right; now left).
  destruct (menu_item_sets_its_label e CONF_initial (tray [] false []) _ item
              eq_refl Hin Hp eq_refl) as [Ht Hr].
  split; [exact Ht|exact (Hr 0%Z [] eq_refl)].
Defined.

(** ** The profile list against its description *)

Lemma stripped_from_strip (raw t : str) : stripped_from raw t -> t = strip raw.
Proof.
  intros [l [r [-> [Hl [Hr Ht]]]]]. symmetry. now apply strip_padded.
Qed.

Lemma profiles_of_profile_set (raws : list str) :
  profile_set_of raws
    (profiles_of CONF.powerprofilesctl_excluded_lines (map strip raws)).
Proof.
  unfold profiles_of. induction raws as [|raw raws IH]; [constructor|].
  cbn [map filter].
  destruct (keep CONF.powerprofilesctl_excluded_lines (strip raw)) eqn:Hk.
  - apply keep_spec in Hk as [Hne Hnm]. cbn [map].
    apply (profile_set_keep raw (strip raw)); auto.
    + apply strip_stripped_from.
    + apply clean_undecorated.
  - apply keep_false_spec in Hk.
    apply (profile_set_drop raw (strip raw)); auto.
    apply strip_stripped_from.
Qed.

(** The description leaves no choice: the raw lines determine the
    profile list. *)
Lemma profile_set_of_unique (raws ps1 ps2 : list str) :
  profile_set_of raws ps1 -> profile_set_of raws ps2 -> ps1 = ps2.
Proof.
  intros H1. revert ps2.
  induction H1 as [|raw t raws ps Ht Hd _ IH|raw t p raws ps Ht Hne Hnm Hp _ IH];
    intros ps2 H2.
  - now inversion H2.
  - inversion H2 as [|? t2 ? ? Ht2 Hd2 Hrest|? t2 p2 ? ? Ht2 Hne2 Hnm2 Hp2 Hrest];
      subst.
    + now apply IH.
    + apply stripped_from_strip in Ht, Ht2. subst t t2.
      destruct Hd; contradiction.
  - inversion H2 as [|? t2 ? ? Ht2 Hd2 Hrest|? t2 p2 ? ? Ht2 Hne2 Hnm2 Hp2 Hrest];
      subst.
    + apply stripped_from_strip in Ht, Ht2. subst t t2.
      destruct Hd2; contradiction.
    + apply stripped_from_strip in Ht, Ht2. subst t t2.
      apply stripped_from_strip in Hp, Hp2. subst p p2.
      f_equal. now apply IH.
Qed.

(** C5. Whatever the list command prints, the profile list is made
    from its lines as follows, in order: a line that, once the
    whitespace around it is removed, is empty or holds an exclusion
    marker anywhere gives no entry; every other line gives one entry,
    the line without its asterisks and colons and without the whitespace
    around what is left.  So no line that holds a marker is an entry.
    The list output ["performance", "*balanced:", "power-saver",
    "CpuDriver: intel_pstate"] gives ["performance", "balanced",
    "power-saver"]. *)
Theorem get_profiles_excludes_markers
    (e : env) (s : state) (rc : Z) (stdout : str) :
  run e list_argv = Exited rc stdout ->
  exists r,
    fst (get_profiles e s) = inr r /\
    profile_set_of (splitlines stdout) (profiles r) /\
    (forall raws,
       Forall no_linebreak raws -> stdout = unlines raws ->
       profile_set_of raws (profiles r)) /\
    (forall raw line,
       In raw (splitlines stdout) -> stripped_from raw line -> marked line ->
       ~ In line (profiles r)) /\
    (stdout = unlines [lit "performance"; lit "*balanced:"; lit "power-saver";
                       lit "CpuDriver: intel_pstate"] ->
     profiles r = [lit "performance"; lit "balanced"; lit "power-saver"]).
Proof.
  intros Hrun. rewrite get_profiles_run, Hrun. cbn [fst].
  eexists. split; [reflexivity|]. cbn [profiles].
  split; [apply profiles_of_profile_set|]. split; [|split].
  - intros raws Hraws ->. rewrite splitlines_unlines by assumption.
    apply profiles_of_profile_set.
  - intros raw line _ _ Hm Hin.
    apply marked_has_colon in Hm.
    unfold profiles_of in Hin. apply in_map_iff in Hin as [l [Hl _]].
    rewrite <- Hl in Hm. apply clean_in in Hm. tauto.
  - intros ->. reflexivity.
Qed.

Lemma get_profiles_excludes_markers_witness :
  let raws := [lit "performance"; lit "  * balanced:  ";
               [TAB] ++ lit "x CpuDriver: y"; lit "   "; lit "power-saver"] in
  exists r,
    fst (get_profiles (world (Exited 0 (unlines raws))) (tray [] false []))
    = inr r /\
    profile_set_of raws (profiles r) /\
    profiles r = [lit "performance"; lit "balanced"; lit "power-saver"].
Proof.
  intros raws.
  destruct (get_profiles_excludes_markers (world (Exited 0 (unlines raws)))
              (tray [] false []) 0%Z (unlines raws) eq_refl)
    as [r [Hr [_ [Hset _]]]].
  exists r. split; [exact Hr|]. split.
  - apply Hset; [|reflexivity]. repeat constructor.
  - vm_compute in Hr. injection Hr as <-. reflexivity.
Defined.
